(** * RISC-GoV IDE: breakpoint instrumentation, instruction scanning and
      line correspondence

    A shallow embedding of the debugger glue of the Qt front-end
    ([debugCode], [getRelevantLine], [HighlightLine], the highlight test of
    [lineNumberAreaPaint]), of the alternate-toolkit builder
    ([insertBreakpoints]) and of the recent-files list ([AddRecentFile]).

    Conventions.
    - A Go [string] is a Rocq [string] (a sequence of bytes).  The white
      space of [strings.TrimSpace] and [strings.Fields] is Unicode's
      ([unicode.IsSpace]): the six ASCII characters and the runes U+0085,
      U+00A0, U+1680, U+2000 to U+200A, U+2028, U+2029, U+202F, U+205F and
      U+3000, recognised by their UTF-8 encodings.  Each encoding starts
      with a lead byte, so it can only occur where Go's decoder starts a
      rune, in well-formed and in ill-formed text alike.
    - A Go [int] is a [Z].  The counters of the scanner are bounded by the
      number of instructions a document expands to, far below [2^63], so no
      wrap-around is written out.
    - A Go [map[K]V] is a [gmap K V]; indexing an absent key yields the zero
      value of [V].
    - The instruction tables of the assembler package
      ([assembler.InstructionToOpType], [assembler.PseudoToInstruction]) are
      not part of this repository: they are parameters of the development. *)

From Stdlib Require Import ZArith Lia Ascii String.
From stdpp Require Import base list gmap strings.

Local Open Scope Z_scope.

(** ** The Go [strings] functions the debugger glue uses *)

Module GoStrings.

(** Line feed, the separator of every [strings.Split] call. *)
Definition nl : ascii := Ascii.ascii_of_nat 10.

Definition isSpace (c : ascii) : bool :=
  let n := Ascii.nat_of_ascii c in
  ((9 <=? n) && (n <=? 13))%nat || (n =? 32)%nat.

(** The byte [c] has the value [n]. *)
Definition byte_is (c : ascii) (n : N) : bool := N.eqb (Ascii.N_of_ascii c) n.

(** Width in bytes of the white-space rune at the head of [s], and 0 when
    [s] does not start with white space: one byte for the ASCII class, two
    for U+0085 and U+00A0 (C2 85, C2 A0), three for U+1680 (E1 9A 80),
    U+2000 to U+200A, U+2028, U+2029, U+202F (E2 80 80..8A, A8, A9, AF),
    U+205F (E2 81 9F) and U+3000 (E3 80 80). *)
Definition space_width (s : string) : nat :=
  match s with
  | EmptyString => 0
  | String c r =>
      if isSpace c then 1
      else
        match r with
        | EmptyString => 0
        | String d r' =>
            if byte_is c 194 then
              if byte_is d 133 || byte_is d 160 then 2 else 0
            else
              match r' with
              | EmptyString => 0
              | String e _ =>
                  if byte_is c 225 then
                    if byte_is d 154 && byte_is e 128 then 3 else 0
                  else if byte_is c 226 then
                    if byte_is d 128
                       && ((N.leb 128 (Ascii.N_of_ascii e)
                            && N.leb (Ascii.N_of_ascii e) 138)
                           || byte_is e 168 || byte_is e 169 || byte_is e 175)
                    then 3
                    else if byte_is d 129 && byte_is e 159 then 3 else 0
                  else if byte_is c 227 then
                    if byte_is d 128 && byte_is e 128 then 3 else 0
                  else 0
              end
        end
  end.

(** Leading white space removed; [skip] counts the bytes of the current
    white-space rune still to pass. *)
Fixpoint TrimLeftSpace_from (skip : nat) (s : string) : string :=
  match s with
  | EmptyString => EmptyString
  | String _ r =>
      match skip with
      | S k => TrimLeftSpace_from k r
      | O =>
          match space_width s with
          | S k => TrimLeftSpace_from k r
          | O => s
          end
      end
  end.

Definition TrimLeftSpace (s : string) : string := TrimLeftSpace_from 0 s.

(** The string holds nothing but white space. *)
Fixpoint only_space (skip : nat) (s : string) : bool :=
  match s with
  | EmptyString => true
  | String _ r =>
      match skip with
      | S k => only_space k r
      | O =>
          match space_width s with
          | S k => only_space k r
          | O => false
          end
      end
  end.

(** Trailing white space removed: the bytes up to the point from which only
    white space follows. *)
Fixpoint TrimRightSpace (s : string) : string :=
  match s with
  | EmptyString => EmptyString
  | String c r =>
      if only_space 0 s then EmptyString else String c (TrimRightSpace r)
  end.

Definition TrimSpace (s : string) : string := TrimRightSpace (TrimLeftSpace s).

Definition HasPrefix (s pre : string) : bool := String.prefix pre s.

(** [strings.Fields]: the maximal runs of bytes between white space.
    [cur] is the field read so far, [skip] the bytes of the current
    white-space rune still to pass. *)
Fixpoint Fields_from (skip : nat) (cur : string) (s : string) : list string :=
  match s with
  | EmptyString =>
      match cur with
      | EmptyString => []
      | _ => [cur]
      end
  | String c r =>
      match skip with
      | S k => Fields_from k cur r
      | O =>
          match space_width s with
          | S k =>
              match cur with
              | EmptyString => Fields_from k EmptyString r
              | _ => cur :: Fields_from k EmptyString r
              end
          | O => Fields_from 0 (cur ++ String c EmptyString)%string r
          end
      end
  end.

Definition Fields (s : string) : list string := Fields_from 0 EmptyString s.

(** [strings.Split] for a one-byte separator: always at least one piece. *)
Fixpoint Split (s : string) (sep : ascii) : list string :=
  match s with
  | EmptyString => [EmptyString]
  | String c r =>
      if Ascii.eqb c sep then EmptyString :: Split r sep
      else
        match Split r sep with
        | h :: t => String c h :: t
        | [] => [String c EmptyString]
        end
  end.

(** [strings.Join] with a one-byte separator. *)
Fixpoint Join (elems : list string) (sep : ascii) : string :=
  match elems with
  | [] => EmptyString
  | [e] => e
  | e :: rest => (e ++ String sep (Join rest sep))%string
  end.

(** A string with no occurrence of the byte [c]. *)
Fixpoint free_of (c : ascii) (s : string) : bool :=
  match s with
  | EmptyString => true
  | String d r => negb (Ascii.eqb d c) && free_of c r
  end.

End GoStrings.

Import GoStrings.

(** The trap instruction both builders insert (the literal before the line
    feed in ["ebreak\n"]). *)
Definition ebreak : string := "ebreak".

(** [s + "\n"]. *)
Definition with_nl (s : string) : string := (s ++ String nl EmptyString)%string.

(** [m[k]] on a [map[int]bool]: the zero value [false] for an absent key. *)
Definition bp_at (breakpoints : gmap Z bool) (k : Z) : bool :=
  default false (breakpoints !! k).

(** ** insertBreakpoints (the alternate-toolkit copy) *)

(** [tempLines] after the loop over the keys of [ide.breakpoints]: every key
    inside the slice bounds prefixes its line once, whatever the line is. *)
Definition insertBreakpoints_tempLines (breakpoints : gmap Z bool)
    (lines : list string) : list string :=
  imap (fun i line =>
          if bool_decide (is_Some (breakpoints !! Z.of_nat i))
          then (with_nl ebreak ++ line)%string else line) lines.

(** The text written to the temporary file. *)
Definition insertBreakpoints (breakpoints : gmap Z bool) (text : string)
    : string :=
  Join (insertBreakpoints_tempLines breakpoints (Split text nl)) nl.

(** ** AddRecentFile *)

(** [preferences.RecentFiles] after [AddRecentFile(filePath)].  The range
    loop looks for the first entry equal to [filePath]; [seen] is the part of
    the slice already passed. *)
Fixpoint AddRecentFile_loop (filePath : string) (seen rest : list string)
    : option (list string) :=
  match rest with
  | [] => None
  | path :: rest' =>
      if String.eqb path filePath
      then Some ([filePath] ++ (seen ++ rest'))
      else AddRecentFile_loop filePath (seen ++ [path]) rest'
  end.

Definition AddRecentFile (filePath : string) (RecentFiles : list string)
    : list string :=
  match AddRecentFile_loop filePath [] RecentFiles with
  | Some moved => moved
  | None =>
      let RecentFiles := [filePath] ++ RecentFiles in
      if (10 <? Z.of_nat (length RecentFiles)) then take 10 RecentFiles
      else RecentFiles
  end.

(** How often [filePath] occurs in the list. *)
Definition occurrences (filePath : string) (files : list string) : nat :=
  length (filter (fun p => p = filePath) files).

(** ** The debugger's globals *)

(** [debugFileSplit], [realFileSplit] and [currentHighline]. *)
Record Globals := mkGlobals {
  debugFileSplit : list string;
  realFileSplit : list string;
  currentHighline : Z;
}.

(** What [HighlightLine] asks of the editor widget once its guard is
    passed. *)
Inductive EditorAction :=
| MoveCursorToLine (lineNumber : Z)
| CenterCursor
| UpdateLineNumberArea.

(** The globals at program start: two nil slices and the zero [int]. *)
Definition initial_globals : Globals :=
  {| debugFileSplit := []; realFileSplit := []; currentHighline := 0 |}.

(** ** Breakpoint toggling and loading *)

(** [lineNumberAreaMousePress] of the Qt editor, for the block number that
    [BlockAtPosition] reports at the click: the entry of the line
    [blockNumber - 1] is deleted when it holds [true] and set to [true]
    otherwise. *)
Definition lineNumberAreaMousePress (blockNumber : Z)
    (breakpoints : gmap Z bool) : gmap Z bool :=
  let lineNumber := blockNumber - 1 in
  if bp_at breakpoints lineNumber then delete lineNumber breakpoints
  else <[lineNumber := true]> breakpoints.

(** [toggleBreakpoint] of the alternate-toolkit copy: the same toggle behind
    a guard on negative line numbers. *)
Definition toggleBreakpoint (lineNum : Z) (breakpoints : gmap Z bool)
    : gmap Z bool :=
  if lineNum <? 0 then breakpoints
  else if bp_at breakpoints lineNum then delete lineNum breakpoints
  else <[lineNum := true]> breakpoints.

(** [strings.ToLower] on ASCII letters. *)
Definition toLowerByte (c : ascii) : ascii :=
  let n := Ascii.nat_of_ascii c in
  if ((65 <=? n) && (n <=? 90))%nat then Ascii.ascii_of_nat (n + 32) else c.

Fixpoint ToLower (s : string) : string :=
  match s with
  | EmptyString => EmptyString
  | String c r => String (toLowerByte c) (ToLower r)
  end.

(** Whether the path holds the separator [/]. *)
Fixpoint has_separator (s : string) : bool :=
  match s with
  | EmptyString => false
  | String c r => Ascii.eqb c "/" || has_separator r
  end.

(** [filepath.Ext] with [/] as the path separator: the suffix from the last
    dot of the last path element, empty when that element has no dot. *)
Fixpoint Ext (path : string) : string :=
  match path with
  | EmptyString => EmptyString
  | String c r =>
      match Ext r with
      | EmptyString =>
          if Ascii.eqb c "." && negb (has_separator r) then path
          else EmptyString
      | e => e
      end
  end.

Definition isAssemblyFile (filename : string) : bool :=
  let ext := ToLower (Ext filename) in
  String.eqb ext ".s" || String.eqb ext ".asm".

(** The range loop of [loadBreakpointsFromFile] over the lines of the file,
    filling the fresh map. *)
Fixpoint loadBreakpoints_loop (i : Z) (lines : list string)
    (breakpoints : gmap Z bool) : gmap Z bool :=
  match lines with
  | [] => breakpoints
  | line :: rest =>
      let trimmed := TrimSpace line in
      let breakpoints :=
        if String.eqb trimmed ebreak then <[i := true]> breakpoints
        else breakpoints in
      loadBreakpoints_loop (i + 1) rest breakpoints
  end.

(** [ide.breakpoints] after [loadBreakpointsFromFile(content)] with
    [ide.currentFile = currentFile]. *)
Definition loadBreakpointsFromFile (currentFile content : string)
    (breakpoints : gmap Z bool) : gmap Z bool :=
  if negb (isAssemblyFile currentFile) then breakpoints
  else loadBreakpoints_loop 0 (Split content nl) ∅.

(** ** setTerminal *)

(** The text [setTerminal(newMSG)] puts in the terminal pane that showed
    [old]: the last [maxLines = 50] lines of [old + newMSG]. *)
Definition setTerminal (old newMSG : string) : string :=
  let maxLines := 50%nat in
  let combined := (old ++ newMSG)%string in
  let lines := Split combined nl in
  let lines :=
    if (maxLines <? length lines)%nat
    then drop (length lines - maxLines) lines else lines in
  Join lines nl.

(** ** A sample of the assembler's tables *)

(** Modelled from the spec: the assembler package is not in this repository.
    The sample holds the mnemonics of the spec's scenarios: [li], [ecall],
    [ebreak] and [addi] as real instructions, and the pseudo-instruction [la]
    that lowers to two real instructions. *)
Definition sample_InstructionToOpType : gmap string unit :=
  {[ "li" := tt; "ecall" := tt; "ebreak" := tt; "addi" := tt ]}.

Definition sample_PseudoToInstruction : gmap string (list string -> list string) :=
  {[ "la" := fun parts => ["auipc"; "addi"] ]}.

Section Debugger.

(** The assembler's tables.  Only the key set of [InstructionToOpType] and
    the length of what a [PseudoToInstruction] entry returns are used. *)
Context {OpType : Type}.
Variable InstructionToOpType : gmap string OpType.
Variable PseudoToInstruction : gmap string (list string -> list string).

(** [_, isInstruction := assembler.InstructionToOpType[m]] *)
Definition isInstruction (m : string) : bool :=
  bool_decide (is_Some (InstructionToOpType !! m)).

(** [_, isInstruction2 := assembler.PseudoToInstruction[m]] *)
Definition isInstruction2 (m : string) : bool :=
  bool_decide (is_Some (PseudoToInstruction !! m)).

(** The comment and blank-line test on a trimmed line. *)
Definition blank_or_comment (trimmedLine : string) : bool :=
  String.eqb trimmedLine "" || HasPrefix trimmedLine "#"
  || HasPrefix trimmedLine "//".

(** *** debugCode / hotReloadCode: the instrumentation loop *)

(** The guard of [modifiedContent.WriteString("ebreak\n")]. *)
Definition needs_trap (breakpoints : gmap Z bool) (lineIndex : Z)
    (line : string) : bool :=
  let trimmedLine := TrimSpace line in
  if negb (String.eqb trimmedLine "") && negb (HasPrefix trimmedLine "#")
     && negb (HasPrefix trimmedLine "//")
  then
    match Fields trimmedLine with
    | [] => false
    | m :: _ =>
        (isInstruction m || isInstruction2 m) && bp_at breakpoints lineIndex
    end
  else false.

(** The loop over [lines], threading the [strings.Builder]. *)
Fixpoint debugCode_loop (breakpoints : gmap Z bool) (lineIndex : Z)
    (lines : list string) (modifiedContent : string) : string :=
  match lines with
  | [] => modifiedContent
  | line :: rest =>
      let modifiedContent :=
        if needs_trap breakpoints lineIndex line
        then (modifiedContent ++ with_nl ebreak)%string
        else modifiedContent in
      debugCode_loop breakpoints (lineIndex + 1) rest
        (modifiedContent ++ with_nl line)%string
  end.

Definition modifiedContent (breakpoints : gmap Z bool) (lines : list string)
    : string :=
  debugCode_loop breakpoints 0 lines "".

(** The lines the loop writes, in order: every [WriteString] of the loop
    appends one line and its line feed.  This is the instrumented
    document. *)
Fixpoint written_lines (breakpoints : gmap Z bool) (lineIndex : Z)
    (lines : list string) : list string :=
  match lines with
  | [] => []
  | line :: rest =>
      (if needs_trap breakpoints lineIndex line then [ebreak] else [])
      ++ line :: written_lines breakpoints (lineIndex + 1) rest
  end.

Definition instrumented (breakpoints : gmap Z bool) (lines : list string)
    : list string :=
  written_lines breakpoints 0 lines.

(** *** getRelevantLine: the instruction-index scanner *)

(** The body of [for i, line := range lines], with the two counters as
    loop state.  The result is [(i, nBreaks)] at the first return, and
    [(-1, nBreaks)] when the range is exhausted. *)
Fixpoint getRelevantLine_loop (lineNum : Z) (i : Z)
    (instructionCount nBreaks : Z) (lines : list string) : Z * Z :=
  match lines with
  | [] => (-1, nBreaks)
  | line :: rest =>
      let trimmedLine := TrimSpace line in
      if blank_or_comment trimmedLine
      then getRelevantLine_loop lineNum (i + 1) instructionCount nBreaks rest
      else
        match Fields trimmedLine with
        | [] =>
            getRelevantLine_loop lineNum (i + 1) instructionCount nBreaks rest
        | (m :: _) as parts =>
            if isInstruction m || isInstruction2 m then
              let instructionCount := instructionCount + 1 in
              if instructionCount =? lineNum then (i, nBreaks)
              else
                let instructionCount :=
                  match PseudoToInstruction !! m with
                  | Some retFunc =>
                      instructionCount
                      + (Z.of_nat (length (retFunc parts)) - 1)
                  | None => instructionCount
                  end in
                let nBreaks :=
                  if String.eqb m ebreak then nBreaks + 1 else nBreaks in
                getRelevantLine_loop lineNum (i + 1) instructionCount nBreaks
                  rest
            else
              getRelevantLine_loop lineNum (i + 1) instructionCount nBreaks
                rest
        end
  end.

Definition getRelevantLine (lineNum : Z) (lines : list string) : Z * Z :=
  getRelevantLine_loop lineNum 0 0 0 lines.

(** *** debugCode's globals and HighlightLine *)

(** [debugCode] up to the point where the two globals are assigned; the
    editor text is [text], the breakpoint map is [debugInfo.breakpoints]. *)
Definition debugCode (text : string) (breakpoints : gmap Z bool)
    (g : Globals) : Globals :=
  let lines := Split text nl in
  let debugFileContent := modifiedContent breakpoints lines in
  {| debugFileSplit := Split debugFileContent nl;
     realFileSplit := Split text nl;
     currentHighline := currentHighline g |}.

Definition HighlightLine (lineNum : Z) (g : Globals)
    : Globals * list EditorAction :=
  let '(realFileVal, realBreaks) := getRelevantLine lineNum (realFileSplit g) in
  let '(_, debugBreaks) := getRelevantLine lineNum (debugFileSplit g) in
  let line := realFileVal + (realBreaks - debugBreaks) in
  let g' := {| debugFileSplit := debugFileSplit g;
               realFileSplit := realFileSplit g;
               currentHighline := line |} in
  if line <? 1 then (g', [])
  else (g', [MoveCursorToLine line; CenterCursor; UpdateLineNumberArea]).

(** The highlight test of [lineNumberAreaPaint] for the block
    [blockNumber]. *)
Definition paints_highlight (isDebugging : bool) (g : Globals)
    (blockNumber : Z) : bool :=
  isDebugging && (blockNumber =? currentHighline g).

(** *** Derived notions the statements use *)

(** The text made of the given lines, each followed by a line feed. *)
Definition unlines (ls : list string) : string :=
  foldr (fun l acc => (with_nl l ++ acc)%string) EmptyString ls.

(** The test both loops apply before looking at a breakpoint or a
    counter: trimmed text not blank, not a comment, first field a key of
    one of the two tables. *)
Definition instruction_bearing (line : string) : bool :=
  let trimmedLine := TrimSpace line in
  negb (blank_or_comment trimmedLine)
  && match Fields trimmedLine with
     | [] => false
     | m :: _ => isInstruction m || isInstruction2 m
     end.

(** How many of the given lines, numbered from [lineIndex], receive a
    trap. *)
Fixpoint trap_count (breakpoints : gmap Z bool) (lineIndex : Z)
    (lines : list string) : nat :=
  match lines with
  | [] => 0%nat
  | line :: rest =>
      ((if needs_trap breakpoints lineIndex line then 1 else 0)
       + trap_count breakpoints (lineIndex + 1) rest)%nat
  end.

Definition instruction_at (lines : list string) (i : Z) : bool :=
  (0 <=? i)
  && match lines !! Z.to_nat i with
     | Some line => instruction_bearing line
     | None => false
     end.

(** The breakpoint indices that fall on an instruction-bearing line. *)
Definition breakpointed_instructions (breakpoints : gmap Z bool)
    (lines : list string) : gset Z :=
  filter (fun i => bp_at breakpoints i && instruction_at lines i = true)
    (dom breakpoints).

(** By how much a line advances [instructionCount] when the scan passes
    it. *)
Definition line_weight (line : string) : Z :=
  let trimmedLine := TrimSpace line in
  if blank_or_comment trimmedLine then 0
  else
    match Fields trimmedLine with
    | [] => 0
    | (m :: _) as parts =>
        if isInstruction m || isInstruction2 m then
          match PseudoToInstruction !! m with
          | Some retFunc => Z.of_nat (length (retFunc parts))
          | None => 1
          end
        else 0
    end.

(** The lines that advance [nBreaks] when the scan passes them. *)
Definition is_trap_line (line : string) : bool :=
  instruction_bearing line
  && match Fields (TrimSpace line) with
     | [] => false
     | m :: _ => String.eqb m ebreak
     end.

(** Total instruction count of a line sequence. *)
Definition instruction_count (lines : list string) : Z :=
  foldr (fun line acc => line_weight line + acc) 0 lines.

(** Number of trap lines of a line sequence. *)
Definition trap_lines (lines : list string) : Z :=
  foldr (fun line acc => (if is_trap_line line then 1 else 0) + acc) 0 lines.



(** An instruction-bearing line that advances the instruction counter by
    one and is not a trap line. *)
Definition plain_instruction (line : string) : bool :=
  instruction_bearing line && negb (is_trap_line line)
  && (line_weight line =? 1).

(** A line that is instruction-bearing and advances the counter by one. *)
Definition unit_line (line : string) : Prop :=
  instruction_bearing line = true /\ line_weight line = 1.

(** ** Facts about the string functions *)

Lemma append_cons (x : ascii) (a b : string) :
  (String x a ++ b)%string = String x (a ++ b)%string.
Proof. reflexivity. Qed.

Lemma append_empty_l (a : string) : ("" ++ a)%string = a.
Proof. reflexivity. Qed.

Lemma append_assoc_s (a b c : string) :
  ((a ++ b) ++ c)%string = (a ++ (b ++ c))%string.
Proof.
  induction a as [|x a IH]; [reflexivity |].
  rewrite !append_cons. f_equal. exact IH.
Qed.

Lemma append_empty_r (a : string) : (a ++ "")%string = a.
Proof.
  induction a as [|x a IH]; [reflexivity |].
  rewrite append_cons. f_equal. exact IH.
Qed.

Lemma Split_nonempty (s : string) (sep : ascii) : Split s sep <> [].
Proof.
  destruct s as [|c r]; simpl; [discriminate |].
  destruct (Ascii.eqb c sep); [discriminate |].
  destruct (Split r sep); discriminate.
Qed.

(** A separator-free line followed by the separator is split off whole. *)
Lemma Split_line (l rest : string) (sep : ascii) :
  free_of sep l = true ->
  Split (l ++ String sep rest) sep = l :: Split rest sep.
Proof.
  induction l as [|c l IH]; intros Hfree.
  - rewrite append_empty_l. simpl. now rewrite Ascii.eqb_refl.
  - simpl in Hfree. apply andb_prop in Hfree as [Hc Hl].
    apply negb_true_iff in Hc. rewrite append_cons. simpl.
    rewrite Hc, (IH Hl). reflexivity.
Qed.

Lemma Split_unlines (ls : list string) :
  Forall (fun l => free_of nl l = true) ls ->
  Split (unlines ls) nl = ls ++ [EmptyString].
Proof.
  induction 1 as [|l ls Hl _ IH]; simpl; [reflexivity |].
  unfold with_nl. rewrite append_assoc_s, append_cons, append_empty_l.
  rewrite (Split_line _ _ _ Hl), IH. reflexivity.
Qed.

(** The pieces [strings.Split] returns hold no separator. *)
Lemma Split_pieces_free (s : string) (sep : ascii) :
  Forall (fun l => free_of sep l = true) (Split s sep).
Proof.
  induction s as [|c r IH]; simpl.
  - repeat constructor.
  - destruct (Ascii.eqb c sep) eqn:Hc.
    + constructor; [reflexivity | exact IH].
    + destruct (Split r sep) as [|h t]; [repeat constructor; simpl; now rewrite Hc|].
      inversion IH as [|? ? Hh Ht]; subst.
      constructor; [simpl; now rewrite Hc, Hh | exact Ht].
Qed.

Lemma Join_Split (s : string) (sep : ascii) : Join (Split s sep) sep = s.
Proof.
  induction s as [|c r IH]; simpl; [reflexivity |].
  destruct (Ascii.eqb c sep) eqn:Hc.
  - apply Ascii.eqb_eq in Hc as ->.
    pose proof (Split_nonempty r sep) as Hne.
    destruct (Split r sep) as [|h t]; [contradiction |].
    simpl. now rewrite <- IH.
  - destruct (Split r sep) as [|h t] eqn:E; [now destruct (Split_nonempty r sep)|].
    rewrite <- IH. destruct t; reflexivity.
Qed.

(** ** Facts about the instrumentation loop *)

Lemma needs_trap_unfold (breakpoints : gmap Z bool) (lineIndex : Z)
    (line : string) :
  needs_trap breakpoints lineIndex line
  = instruction_bearing line && bp_at breakpoints lineIndex.
Proof.
  unfold needs_trap, instruction_bearing, blank_or_comment.
  destruct (String.eqb (TrimSpace line) ""); simpl; [reflexivity |].
  destruct (HasPrefix (TrimSpace line) "#"); simpl; [reflexivity |].
  destruct (HasPrefix (TrimSpace line) "//"); simpl; [reflexivity |].
  destruct (Fields (TrimSpace line)); reflexivity.
Qed.

(** The builder's string is the written lines, one line feed after each. *)
Lemma debugCode_loop_written (breakpoints : gmap Z bool) (lines : list string) :
  forall lineIndex acc,
    debugCode_loop breakpoints lineIndex lines acc
    = (acc ++ unlines (written_lines breakpoints lineIndex lines))%string.
Proof.
  induction lines as [|line rest IH]; intros lineIndex acc; simpl.
  - now rewrite append_empty_r.
  - rewrite IH. destruct (needs_trap breakpoints lineIndex line); simpl.
    + now rewrite !append_assoc_s.
    + now rewrite append_assoc_s.
Qed.

Lemma modifiedContent_unlines (breakpoints : gmap Z bool) (lines : list string) :
  modifiedContent breakpoints lines = unlines (instrumented breakpoints lines).
Proof. unfold modifiedContent. now rewrite debugCode_loop_written. Qed.

Lemma written_lines_free (breakpoints : gmap Z bool) (lines : list string) :
  Forall (fun l => free_of nl l = true) lines ->
  forall lineIndex,
    Forall (fun l => free_of nl l = true)
      (written_lines breakpoints lineIndex lines).
Proof.
  induction 1 as [|line rest Hl _ IH]; intros lineIndex; simpl; [constructor |].
  destruct (needs_trap breakpoints lineIndex line); simpl.
  - constructor; [reflexivity |]. constructor; [exact Hl | apply IH].
  - constructor; [exact Hl | apply IH].
Qed.

(** What [debugCode] leaves in the two globals: the source lines, and the
    written lines followed by the empty piece after the last line feed. *)
Lemma debugCode_globals (text : string) (breakpoints : gmap Z bool)
    (g : Globals) :
  realFileSplit (debugCode text breakpoints g) = Split text nl
  /\ debugFileSplit (debugCode text breakpoints g)
     = instrumented breakpoints (Split text nl) ++ [EmptyString].
Proof.
  split; [reflexivity |]. simpl.
  rewrite modifiedContent_unlines. apply Split_unlines.
  apply written_lines_free, Split_pieces_free.
Qed.

Lemma trap_count_app (breakpoints : gmap Z bool) (a b : list string) :
  forall lineIndex,
    trap_count breakpoints lineIndex (a ++ b)
    = (trap_count breakpoints lineIndex a
       + trap_count breakpoints (lineIndex + Z.of_nat (length a)) b)%nat.
Proof.
  induction a as [|x a IH]; intros lineIndex.
  - simpl. now rewrite Z.add_0_r.
  - cbn [app trap_count length]. rewrite IH, Nat2Z.inj_succ.
    replace (lineIndex + 1 + Z.of_nat (length a))
      with (lineIndex + Z.succ (Z.of_nat (length a))) by lia.
    lia.
Qed.

Lemma written_lines_app (breakpoints : gmap Z bool) (a b : list string) :
  forall lineIndex,
    written_lines breakpoints lineIndex (a ++ b)
    = written_lines breakpoints lineIndex a
      ++ written_lines breakpoints (lineIndex + Z.of_nat (length a)) b.
Proof.
  induction a as [|x a IH]; intros lineIndex.
  - simpl. now rewrite Z.add_0_r.
  - cbn [app written_lines length]. rewrite IH, Nat2Z.inj_succ.
    replace (lineIndex + 1 + Z.of_nat (length a))
      with (lineIndex + Z.succ (Z.of_nat (length a))) by lia.
    now rewrite <- !app_assoc.
Qed.

Lemma written_lines_length (breakpoints : gmap Z bool) (lines : list string) :
  forall lineIndex,
    length (written_lines breakpoints lineIndex lines)
    = (length lines + trap_count breakpoints lineIndex lines)%nat.
Proof.
  induction lines as [|line rest IH]; intros lineIndex; simpl; [reflexivity |].
  rewrite length_app. simpl. rewrite IH.
  destruct (needs_trap breakpoints lineIndex line); simpl; lia.
Qed.


Lemma written_lines_blocks (breakpoints : gmap Z bool) (lines : list string) :
  forall lineIndex,
    written_lines breakpoints lineIndex lines
    = concat (imap (fun i line =>
                      if needs_trap breakpoints (lineIndex + Z.of_nat i) line
                      then [ebreak; line] else [line]) lines).
Proof.
  induction lines as [|line rest IH]; intros lineIndex; [reflexivity |].
  cbn [written_lines]. rewrite imap_cons. cbn [concat].
  rewrite Z.add_0_r, IH.
  rewrite (imap_ext _
    ((fun i line =>
        if needs_trap breakpoints (lineIndex + Z.of_nat i) line
        then [ebreak; line] else [line]) ∘ S) rest).
  - destruct (needs_trap breakpoints lineIndex line); reflexivity.
  - intros i x _. cbn [compose].
    replace (lineIndex + Z.of_nat (S i)) with (lineIndex + 1 + Z.of_nat i)
      by lia.
    reflexivity.
Qed.



Lemma breakpointed_instructions_elem (breakpoints : gmap Z bool)
    (lines : list string) (i : Z) :
  i ∈ breakpointed_instructions breakpoints lines
  <-> bp_at breakpoints i = true /\ instruction_at lines i = true.
Proof.
  unfold breakpointed_instructions. rewrite elem_of_filter, elem_of_dom.
  rewrite andb_true_iff. split; [tauto |].
  intros [Hbp Hin]. split; [tauto |].
  unfold bp_at in Hbp. destruct (breakpoints !! i); [eauto | discriminate].
Qed.

Lemma instruction_at_snoc (lines : list string) (line : string) (i : Z) :
  instruction_at (lines ++ [line]) i
  = instruction_at lines i
    || ((i =? Z.of_nat (length lines)) && instruction_bearing line).
Proof.
  unfold instruction_at.
  destruct (Z.leb_spec 0 i) as [Hi|Hi]; simpl.
  2:{ destruct (Z.eqb_spec i (Z.of_nat (length lines))); [lia | reflexivity]. }
  destruct (Z.eqb_spec i (Z.of_nat (length lines))) as [->|Hne]; simpl.
  - rewrite Nat2Z.id, lookup_app_r by lia.
    rewrite Nat.sub_diag, (lookup_ge_None_2 lines) by lia. reflexivity.
  - destruct (decide (Z.to_nat i < length lines)%nat) as [Hlt|Hge].
    + rewrite lookup_app_l by lia. now rewrite orb_false_r.
    + rewrite (lookup_ge_None_2 lines) by lia.
      rewrite (lookup_ge_None_2 (lines ++ [line])); [reflexivity |].
      rewrite length_app. simpl. lia.
Qed.

Lemma trap_count_size (breakpoints : gmap Z bool) (lines : list string) :
  trap_count breakpoints 0 lines
  = size (breakpointed_instructions breakpoints lines).
Proof.
  induction lines as [|line lines IH] using rev_ind.
  - simpl. symmetry. apply size_empty_iff. intros i.
    rewrite breakpointed_instructions_elem. unfold instruction_at.
    rewrite lookup_nil, andb_false_r, elem_of_empty.
    split; [intros [_ ?]; discriminate | tauto].
  - rewrite trap_count_app. cbn [trap_count]. rewrite Z.add_0_l, IH.
    set (n := Z.of_nat (length lines)).
    assert (Hset : breakpointed_instructions breakpoints (lines ++ [line])
                   = breakpointed_instructions breakpoints lines
                     ∪ (if needs_trap breakpoints n line then {[n]} else ∅)).
    { apply set_eq. intros i.
      rewrite elem_of_union, !breakpointed_instructions_elem.
      rewrite instruction_at_snoc, needs_trap_unfold. fold n.
      rewrite orb_true_iff, andb_true_iff, Z.eqb_eq.
      assert (Hin : forall c : bool,
                 i ∈ (if c then {[n]} else ∅ : gset Z) <-> c = true /\ i = n).
      { intros [|]; rewrite ?elem_of_singleton, ?elem_of_empty;
          intuition congruence. }
      rewrite Hin, andb_true_iff. intuition (subst; auto). }
    rewrite Hset, size_union.
    + destruct (needs_trap breakpoints n line);
        [rewrite size_singleton | rewrite size_empty]; lia.
    + assert (Hn : n ∉ breakpointed_instructions breakpoints lines).
      { rewrite breakpointed_instructions_elem. unfold instruction_at, n.
        rewrite Nat2Z.id, (lookup_ge_None_2 lines), andb_false_r by lia.
        intros [_ ?]. discriminate. }
      destruct (needs_trap breakpoints n line);
        [now apply disjoint_singleton_r | apply disjoint_empty_r].
Qed.



(** X22. The document [debugCode] writes has exactly as many lines as the
    source plus one per breakpoint index that falls on an instruction-bearing
    line; it is never shorter than the source. *)
Theorem instrumented_length (breakpoints : gmap Z bool) (lines : list string) :
  length (instrumented breakpoints lines)
  = (length lines + size (breakpointed_instructions breakpoints lines))%nat
  /\ (length lines <= length (instrumented breakpoints lines))%nat.
Proof.
  unfold instrumented. rewrite written_lines_length, trap_count_size. lia.
Qed.

(** ** Facts about the scanner *)

Lemma not_instruction_bearing (line : string) :
  instruction_bearing line = false ->
  line_weight line = 0 /\ is_trap_line line = false.
Proof.
  unfold is_trap_line, line_weight, instruction_bearing.
  destruct (blank_or_comment (TrimSpace line)); simpl; [tauto |].
  destruct (Fields (TrimSpace line)) as [|m rest]; [tauto |].
  intros ->. tauto.
Qed.

Lemma line_weight_nonneg (line : string) : 0 <= line_weight line.
Proof.
  unfold line_weight.
  destruct (blank_or_comment (TrimSpace line)); [lia |].
  destruct (Fields (TrimSpace line)) as [|m rest]; [lia |].
  destruct (isInstruction m || isInstruction2 m); [| lia].
  destruct (PseudoToInstruction !! m); lia.
Qed.

(** One iteration of the scan, in terms of the derived notions. *)
Lemma getRelevantLine_loop_cons (lineNum i instructionCount nBreaks : Z)
    (line : string) (rest : list string) :
  getRelevantLine_loop lineNum i instructionCount nBreaks (line :: rest)
  = if instruction_bearing line then
      if instructionCount + 1 =? lineNum then (i, nBreaks)
      else getRelevantLine_loop lineNum (i + 1)
             (instructionCount + line_weight line)
             (nBreaks + (if is_trap_line line then 1 else 0)) rest
    else getRelevantLine_loop lineNum (i + 1) instructionCount nBreaks rest.
Proof.
  cbn [getRelevantLine_loop].
  unfold is_trap_line, line_weight, instruction_bearing.
  destruct (blank_or_comment (TrimSpace line)); simpl; [reflexivity |].
  destruct (Fields (TrimSpace line)) as [|m parts]; [reflexivity |].
  destruct (isInstruction m || isInstruction2 m); [| reflexivity].
  destruct (instructionCount + 1 =? lineNum); [reflexivity |].
  f_equal.
  - destruct (PseudoToInstruction !! m); lia.
  - simpl. destruct (String.eqb m ebreak); lia.
Qed.

Lemma instruction_count_app (a b : list string) :
  instruction_count (a ++ b) = instruction_count a + instruction_count b.
Proof.
  unfold instruction_count. induction a as [|x a IH]; simpl; lia.
Qed.

Lemma trap_lines_app (a b : list string) :
  trap_lines (a ++ b) = trap_lines a + trap_lines b.
Proof. unfold trap_lines. induction a as [|x a IH]; simpl; lia. Qed.

Lemma instruction_count_nonneg (lines : list string) :
  0 <= instruction_count lines.
Proof.
  unfold instruction_count. induction lines as [|x a IH]; simpl; [lia |].
  pose proof (line_weight_nonneg x). lia.
Qed.

Lemma instruction_count_take_mono (lines : list string) :
  forall p q : nat,
    (p <= q)%nat ->
    instruction_count (take p lines) <= instruction_count (take q lines).
Proof.
  induction lines as [|x lines IH]; intros p q Hpq.
  - rewrite !take_nil. lia.
  - destruct p as [|p]; destruct q as [|q]; try lia.
    + rewrite take_0. apply instruction_count_nonneg.
    + cbn [take]. change (x :: take p lines) with ([x] ++ take p lines).
      change (x :: take q lines) with ([x] ++ take q lines).
      rewrite !instruction_count_app. specialize (IH p q). lia.
Qed.

Lemma instruction_count_take_le (lines : list string) (p : nat) :
  instruction_count (take p lines) <= instruction_count lines.
Proof.
  rewrite <- (take_drop p lines) at 2. rewrite instruction_count_app.
  pose proof (instruction_count_nonneg (drop p lines)). lia.
Qed.

Lemma instruction_count_cons (line : string) (lines : list string) :
  instruction_count (line :: lines) = line_weight line + instruction_count lines.
Proof. reflexivity. Qed.

Lemma trap_lines_cons (line : string) (lines : list string) :
  trap_lines (line :: lines)
  = (if is_trap_line line then 1 else 0) + trap_lines lines.
Proof. reflexivity. Qed.

(** The scan, characterised: either no instruction-bearing line starts at
    count [lineNum] and the result is [-1] with every trap counted, or the
    result is the first such line with the traps strictly before it. *)
Lemma scan_cases (lineNum : Z) (lines : list string) :
  forall i instructionCount nBreaks,
    (getRelevantLine_loop lineNum i instructionCount nBreaks lines
     = (-1, nBreaks + trap_lines lines)
     /\ forall (p : nat) line,
          lines !! p = Some line -> instruction_bearing line = true ->
          instructionCount + instruction_count (take p lines) + 1 <> lineNum)
    \/ (exists (p : nat) line,
          getRelevantLine_loop lineNum i instructionCount nBreaks lines
          = (i + Z.of_nat p, nBreaks + trap_lines (take p lines))
          /\ lines !! p = Some line
          /\ instruction_bearing line = true
          /\ instructionCount + instruction_count (take p lines) + 1 = lineNum
          /\ forall (q : nat) line',
               (q < p)%nat -> lines !! q = Some line' ->
               instruction_bearing line' = true ->
               instructionCount + instruction_count (take q lines) + 1
               <> lineNum).
Proof.
  induction lines as [|line rest IH]; intros i c nb.
  - left. split; [simpl; f_equal; unfold trap_lines; simpl; lia |].
    intros p l Hp. rewrite lookup_nil in Hp. discriminate.
  - rewrite getRelevantLine_loop_cons.
    destruct (instruction_bearing line) eqn:Hib.
    + destruct (Z.eqb_spec (c + 1) lineNum) as [Heq|Hne].
      * right. exists 0%nat, line. rewrite take_0.
        repeat split; try assumption.
        -- f_equal; unfold trap_lines; simpl; lia.
        -- unfold instruction_count. simpl. lia.
        -- intros q l Hq. lia.
      * destruct (IH (i + 1) (c + line_weight line)
                    (nb + (if is_trap_line line then 1 else 0)))
          as [[Hr Hall] | (p & l & Hr & Hp & Hl & Hk & Hmin)].
        -- left. split.
           ++ rewrite Hr, trap_lines_cons. f_equal. lia.
           ++ intros [|p] l Hp Hl.
              ** rewrite take_0. unfold instruction_count. simpl. lia.
              ** cbn [take]. rewrite instruction_count_cons.
                 specialize (Hall p l Hp Hl). lia.
        -- right. exists (S p), l. cbn [take].
           rewrite instruction_count_cons, trap_lines_cons, Hr.
           repeat split; try assumption.
           ++ f_equal; lia.
           ++ lia.
           ++ intros [|q] l' Hq Hq' Hl'.
              ** rewrite take_0. unfold instruction_count. simpl. lia.
              ** cbn [take]. rewrite instruction_count_cons.
                 assert (Hqp : (q < p)%nat) by lia.
                 specialize (Hmin q l' Hqp Hq' Hl'). lia.
    + destruct (not_instruction_bearing line Hib) as [Hw Ht].
      destruct (IH (i + 1) c nb)
        as [[Hr Hall] | (p & l & Hr & Hp & Hl & Hk & Hmin)].
      * left. split.
        -- rewrite Hr, trap_lines_cons, Ht. f_equal.
        -- intros [|p] l Hp Hl.
           ++ simpl in Hp. injection Hp as <-. congruence.
           ++ cbn [take]. rewrite instruction_count_cons, Hw.
              specialize (Hall p l Hp Hl). lia.
      * right. exists (S p), l. cbn [take].
        rewrite instruction_count_cons, trap_lines_cons, Hr, Hw, Ht.
        repeat split; try assumption; try lia.
        -- f_equal; lia.
        -- intros [|q] l' Hq Hq' Hl'.
           ++ simpl in Hq'. injection Hq' as <-. congruence.
           ++ cbn [take]. rewrite instruction_count_cons, Hw.
              assert (Hqp : (q < p)%nat) by lia.
              specialize (Hmin q l' Hqp Hq' Hl'). lia.
Qed.

Lemma getRelevantLine_cases (lineNum : Z) (lines : list string) :
  (getRelevantLine lineNum lines = (-1, trap_lines lines)
   /\ forall (p : nat) line,
        lines !! p = Some line -> instruction_bearing line = true ->
        instruction_count (take p lines) + 1 <> lineNum)
  \/ (exists (p : nat) line,
        getRelevantLine lineNum lines
        = (Z.of_nat p, trap_lines (take p lines))
        /\ lines !! p = Some line
        /\ instruction_bearing line = true
        /\ instruction_count (take p lines) + 1 = lineNum
        /\ forall (q : nat) line',
             (q < p)%nat -> lines !! q = Some line' ->
             instruction_bearing line' = true ->
             instruction_count (take q lines) + 1 <> lineNum).
Proof.
  unfold getRelevantLine.
  destruct (scan_cases lineNum lines 0 0 0)
    as [[Hr Hall] | (p & l & Hr & Hp & Hl & Hk & Hmin)]; [left | right].
  - split; [exact Hr |]. intros p l Hp Hl. specialize (Hall p l Hp Hl). lia.
  - exists p, l. repeat split; assumption.
Qed.

(** [HighlightLine] in one equation. *)
Lemma HighlightLine_eq (lineNum : Z) (g : Globals) :
  let line := fst (getRelevantLine lineNum (realFileSplit g))
              + (snd (getRelevantLine lineNum (realFileSplit g))
                 - snd (getRelevantLine lineNum (debugFileSplit g))) in
  HighlightLine lineNum g
  = ({| debugFileSplit := debugFileSplit g;
        realFileSplit := realFileSplit g;
        currentHighline := line |},
     if line <? 1 then []
     else [MoveCursorToLine line; CenterCursor; UpdateLineNumberArea]).
Proof.
  unfold HighlightLine.
  destruct (getRelevantLine lineNum (realFileSplit g)) as [realFileVal realBreaks].
  destruct (getRelevantLine lineNum (debugFileSplit g)) as [dbgVal debugBreaks].
  cbn [fst snd].
  destruct (realFileVal + (realBreaks - debugBreaks) <? 1); reflexivity.
Qed.

(** C1. [HighlightLine] stores in [currentHighline] the source scan's line
    plus the difference between the source scan's and the instrumented
    scan's trap counters, both scans run for the same target; from 1
    upwards this is the line the cursor is moved to. *)
Theorem HighlightLine_line (lineNum : Z) (g : Globals) :
  let srcLine := fst (getRelevantLine lineNum (realFileSplit g)) in
  let srcTraps := snd (getRelevantLine lineNum (realFileSplit g)) in
  let instrTraps := snd (getRelevantLine lineNum (debugFileSplit g)) in
  currentHighline (fst (HighlightLine lineNum g))
  = srcLine + (srcTraps - instrTraps)
  /\ realFileSplit (fst (HighlightLine lineNum g)) = realFileSplit g
  /\ debugFileSplit (fst (HighlightLine lineNum g)) = debugFileSplit g
  /\ snd (HighlightLine lineNum g)
     = if srcLine + (srcTraps - instrTraps) <? 1 then []
       else [MoveCursorToLine (srcLine + (srcTraps - instrTraps));
             CenterCursor; UpdateLineNumberArea].
Proof.
  intros srcLine srcTraps instrTraps. rewrite HighlightLine_eq.
  cbn [fst snd currentHighline realFileSplit debugFileSplit].
  repeat split.
Qed.

(** C7 (amended). When the target is found, the returned trap counter is
    the number of trap lines strictly before the returned line; the
    returned line itself is not counted. *)
Theorem getRelevantLine_traps_before (lineNum : Z) (lines : list string)
    (j n : Z) :
  getRelevantLine lineNum lines = (j, n) ->
  0 <= j ->
  n = trap_lines (take (Z.to_nat j) lines).
Proof.
  intros Hr Hj.
  destruct (getRelevantLine_cases lineNum lines)
    as [[Hr' _] | (p & l & Hr' & _)]; rewrite Hr' in Hr.
  - injection Hr as <- <-. lia.
  - injection Hr as <- <-. now rewrite Nat2Z.id.
Qed.

(** X23. For targets [k1 <= k2] such that the scan for [k2] finds a line,
    the line returned for [k1] is not after the line returned for [k2]. *)
Theorem getRelevantLine_monotone (lines : list string) (k1 k2 : Z) :
  k1 <= k2 ->
  0 <= fst (getRelevantLine k2 lines) ->
  fst (getRelevantLine k1 lines) <= fst (getRelevantLine k2 lines).
Proof.
  intros Hk Hfound.
  destruct (Z.eq_dec k1 k2) as [->|Hne]; [lia |].
  destruct (getRelevantLine_cases k2 lines)
    as [[Hr2 _] | (p2 & l2 & Hr2 & _ & _ & Hk2 & _)];
    rewrite Hr2 in *; cbn [fst] in *; [lia |].
  destruct (getRelevantLine_cases k1 lines)
    as [[Hr1 _] | (p1 & l1 & Hr1 & _ & _ & Hk1 & _)];
    rewrite Hr1; cbn [fst]; [lia |].
  destruct (le_lt_dec p1 p2) as [Hle|Hlt]; [lia |].
  pose proof (instruction_count_take_mono lines p2 p1). lia.
Qed.

(** Every target strictly inside the expansion of a line (past the count
    at which the line starts, within the count it ends at) is reported as
    not found. *)
Lemma getRelevantLine_inside_expansion (lines : list string) (p : nat)
    (line : string) (lineNum : Z) :
  lines !! p = Some line ->
  instruction_count (take p lines) + 1 < lineNum ->
  lineNum <= instruction_count (take (S p) lines) ->
  getRelevantLine lineNum lines = (-1, trap_lines lines).
Proof.
  intros Hp Hlo Hhi.
  destruct (getRelevantLine_cases lineNum lines)
    as [[Hr _] | (q & l & _ & Hq & _ & Hkq & _)]; [exact Hr |].
  exfalso. destruct (le_lt_dec q p) as [Hle|Hlt].
  - pose proof (instruction_count_take_mono lines q p Hle). lia.
  - pose proof (instruction_count_take_mono lines (S p) q Hlt). lia.
Qed.


(** ** Further facts about the scanner *)

Lemma trap_lines_nonneg (lines : list string) : 0 <= trap_lines lines.
Proof.
  induction lines as [|x lines IH]; [reflexivity |].
  rewrite trap_lines_cons. destruct (is_trap_line x); lia.
Qed.

Lemma trap_lines_take_le (lines : list string) (p : nat) :
  trap_lines (take p lines) <= trap_lines lines.
Proof.
  rewrite <- (take_drop p lines) at 2. rewrite trap_lines_app.
  pose proof (trap_lines_nonneg (drop p lines)). lia.
Qed.

(** X1. The scanner returns either the line index -1 with every trap line
    counted, or, for a target of at least 1, the index of a line of the
    sequence that is instruction-bearing (never a blank or comment line);
    the trap counter is never negative and never above the number of trap
    lines. *)
Theorem getRelevantLine_result (lineNum : Z) (lines : list string) :
  let r := getRelevantLine lineNum lines in
  0 <= snd r <= trap_lines lines
  /\ ((fst r = -1 /\ snd r = trap_lines lines)
      \/ (1 <= lineNum
          /\ 0 <= fst r < Z.of_nat (length lines)
          /\ exists line, lines !! Z.to_nat (fst r) = Some line
                          /\ instruction_bearing line = true)).
Proof.
  intros r. subst r.
  destruct (getRelevantLine_cases lineNum lines)
    as [[Hr _] | (p & l & Hr & Hp & Hl & Hk & _)]; rewrite Hr; cbn [fst snd].
  - pose proof (trap_lines_nonneg lines). split; [lia |]. left. split; reflexivity.
  - pose proof (trap_lines_nonneg (take p lines)).
    pose proof (trap_lines_take_le lines p).
    pose proof (instruction_count_nonneg (take p lines)).
    pose proof (lookup_lt_Some _ _ _ Hp).
    split; [lia |]. right. repeat split; try lia.
    exists l. rewrite Nat2Z.id. split; assumption.
Qed.

(** X2. Two different targets that are both found never resolve to the same
    line: the line index grows strictly with the target. *)
Theorem getRelevantLine_strict (lines : list string) (k1 k2 : Z) :
  k1 < k2 ->
  0 <= fst (getRelevantLine k1 lines) ->
  0 <= fst (getRelevantLine k2 lines) ->
  fst (getRelevantLine k1 lines) < fst (getRelevantLine k2 lines).
Proof.
  intros Hk H1 H2.
  destruct (getRelevantLine_cases k1 lines)
    as [[Hr1 _] | (p1 & l1 & Hr1 & _ & _ & Hk1 & _)];
    rewrite Hr1 in *; cbn [fst] in *; [lia |].
  destruct (getRelevantLine_cases k2 lines)
    as [[Hr2 _] | (p2 & l2 & Hr2 & _ & _ & Hk2 & _)];
    rewrite Hr2 in *; cbn [fst] in *; [lia |].
  destruct (le_lt_dec p2 p1) as [Hle|Hlt]; [| lia].
  pose proof (instruction_count_take_mono lines p2 p1 Hle). lia.
Qed.

Lemma getRelevantLine_loop_no_instruction (lineNum : Z) (more : list string) :
  Forall (fun l => instruction_bearing l = false) more ->
  forall i instructionCount nBreaks,
    getRelevantLine_loop lineNum i instructionCount nBreaks more
    = (-1, nBreaks).
Proof.
  induction 1 as [|l more Hl _ IH]; intros i c nb; [reflexivity |].
  rewrite getRelevantLine_loop_cons, Hl. apply IH.
Qed.

Lemma getRelevantLine_loop_app_blank (lineNum : Z) (lines more : list string) :
  Forall (fun l => instruction_bearing l = false) more ->
  forall i instructionCount nBreaks,
    getRelevantLine_loop lineNum i instructionCount nBreaks (lines ++ more)
    = getRelevantLine_loop lineNum i instructionCount nBreaks lines.
Proof.
  intros Hmore. induction lines as [|l lines IH]; intros i c nb.
  - simpl. now rewrite getRelevantLine_loop_no_instruction.
  - rewrite <- app_comm_cons, !getRelevantLine_loop_cons.
    destruct (instruction_bearing l); [| apply IH].
    destruct (c + 1 =? lineNum); [reflexivity | apply IH].
Qed.

Lemma getRelevantLine_loop_app_found (lineNum : Z) (lines more : list string) :
  forall i instructionCount nBreaks,
    fst (getRelevantLine_loop lineNum i instructionCount nBreaks lines) <> -1 ->
    getRelevantLine_loop lineNum i instructionCount nBreaks (lines ++ more)
    = getRelevantLine_loop lineNum i instructionCount nBreaks lines.
Proof.
  induction lines as [|l lines IH]; intros i c nb Hfound.
  - simpl in Hfound. contradiction.
  - rewrite <- app_comm_cons, !getRelevantLine_loop_cons.
    rewrite getRelevantLine_loop_cons in Hfound.
    destruct (instruction_bearing l); [| now apply IH].
    destruct (c + 1 =? lineNum); [reflexivity | now apply IH].
Qed.

(** X3. Lines that are not instruction-bearing (blank lines, comments,
    unknown mnemonics) appended to a sequence change no scan result: line
    index and trap counter stay the same for every target. *)
Theorem getRelevantLine_app_blank (lineNum : Z) (lines more : list string) :
  Forall (fun l => instruction_bearing l = false) more ->
  getRelevantLine lineNum (lines ++ more) = getRelevantLine lineNum lines.
Proof. intros Hmore. now apply getRelevantLine_loop_app_blank. Qed.

(** X4. A target found in a sequence is found on the same line, with the
    same trap counter, in every extension of the sequence: what follows the
    returned line is never looked at. *)
Theorem getRelevantLine_app_found (lineNum : Z) (lines more : list string) :
  0 <= fst (getRelevantLine lineNum lines) ->
  getRelevantLine lineNum (lines ++ more) = getRelevantLine lineNum lines.
Proof.
  intros Hfound. apply getRelevantLine_loop_app_found.
  fold (getRelevantLine lineNum lines). lia.
Qed.

(** ** HighlightLine when no trap is inserted *)

Lemma written_lines_no_trap (breakpoints : gmap Z bool) (lines : list string) :
  forall lineIndex,
    trap_count breakpoints lineIndex lines = 0%nat ->
    written_lines breakpoints lineIndex lines = lines.
Proof.
  induction lines as [|line rest IH]; intros lineIndex Hc; [reflexivity |].
  cbn [trap_count] in Hc. cbn [written_lines].
  destruct (needs_trap breakpoints lineIndex line); [lia |].
  simpl. f_equal. apply IH. lia.
Qed.

Lemma empty_piece_not_instruction :
  Forall (fun l => instruction_bearing l = false) [EmptyString].
Proof. constructor; [reflexivity | constructor]. Qed.

(** X5. When no breakpoint falls on an instruction-bearing line (in
    particular with no breakpoint at all), [HighlightLine] after [debugCode]
    stores exactly the line the source scan returns, for every target. *)
Theorem HighlightLine_no_trap (text : string) (breakpoints : gmap Z bool)
    (g : Globals) (lineNum : Z) :
  breakpointed_instructions breakpoints (Split text nl) = ∅ ->
  currentHighline (fst (HighlightLine lineNum (debugCode text breakpoints g)))
  = fst (getRelevantLine lineNum (Split text nl)).
Proof.
  intros Hnone.
  destruct (debugCode_globals text breakpoints g) as [Hreal Hdbg].
  assert (Hsame : instrumented breakpoints (Split text nl) = Split text nl).
  { apply written_lines_no_trap. rewrite trap_count_size, Hnone.
    apply size_empty. }
  rewrite HighlightLine_eq, Hreal, Hdbg, Hsame. cbn [fst currentHighline].
  unfold getRelevantLine at 3.
  rewrite (getRelevantLine_loop_app_blank _ _ _ empty_piece_not_instruction).
  fold (getRelevantLine lineNum (Split text nl)). lia.
Qed.

(** ** Breakpoint toggling *)

Lemma bp_at_delete (breakpoints : gmap Z bool) (k i : Z) :
  bp_at (delete k breakpoints) i
  = if decide (i = k) then false else bp_at breakpoints i.
Proof.
  unfold bp_at. destruct (decide (i = k)) as [->|Hne].
  - now rewrite lookup_delete_eq.
  - now rewrite lookup_delete_ne.
Qed.

Lemma bp_at_insert_true (breakpoints : gmap Z bool) (k i : Z) :
  bp_at (<[k := true]> breakpoints) i
  = if decide (i = k) then true else bp_at breakpoints i.
Proof.
  unfold bp_at. destruct (decide (i = k)) as [->|Hne].
  - now rewrite lookup_insert_eq.
  - now rewrite lookup_insert_ne.
Qed.

Lemma bp_at_press (blockNumber : Z) (breakpoints : gmap Z bool) (i : Z) :
  bp_at (lineNumberAreaMousePress blockNumber breakpoints) i
  = if decide (i = blockNumber - 1)
    then negb (bp_at breakpoints (blockNumber - 1))
    else bp_at breakpoints i.
Proof.
  unfold lineNumberAreaMousePress. cbv zeta.
  destruct (bp_at breakpoints (blockNumber - 1)) eqn:Hb.
  - rewrite bp_at_delete. destruct (decide (i = blockNumber - 1)); reflexivity.
  - rewrite bp_at_insert_true.
    destruct (decide (i = blockNumber - 1)); reflexivity.
Qed.

(** X6. A click in the line-number area flips the breakpoint of the line
    [blockNumber - 1] and leaves the breakpoint of every other line as it
    was. *)
Theorem lineNumberAreaMousePress_flips (blockNumber : Z)
    (breakpoints : gmap Z bool) (i : Z) :
  bp_at (lineNumberAreaMousePress blockNumber breakpoints) (blockNumber - 1)
  = negb (bp_at breakpoints (blockNumber - 1))
  /\ (i <> blockNumber - 1 ->
      bp_at (lineNumberAreaMousePress blockNumber breakpoints) i
      = bp_at breakpoints i).
Proof.
  split.
  - rewrite bp_at_press. destruct (decide (blockNumber - 1 = blockNumber - 1));
      [reflexivity | contradiction].
  - intros Hne. rewrite bp_at_press.
    destruct (decide (i = blockNumber - 1)); [contradiction | reflexivity].
Qed.

(** X7. The toggle only ever stores [true]: a map whose entries all hold
    [true] keeps that form under a click, and a second click on the same
    line then restores the map exactly. *)
Theorem lineNumberAreaMousePress_twice (blockNumber : Z)
    (breakpoints : gmap Z bool) :
  map_Forall (fun _ v => v = true) breakpoints ->
  map_Forall (fun _ v => v = true)
    (lineNumberAreaMousePress blockNumber breakpoints)
  /\ lineNumberAreaMousePress blockNumber
       (lineNumberAreaMousePress blockNumber breakpoints)
     = breakpoints.
Proof.
  intros Hall. unfold lineNumberAreaMousePress. cbv zeta.
  set (k := blockNumber - 1).
  destruct (bp_at breakpoints k) eqn:Hb.
  - split; [now apply map_Forall_delete |].
    rewrite bp_at_delete. destruct (decide (k = k)); [| contradiction].
    unfold bp_at in Hb.
    destruct (breakpoints !! k) as [[|]|] eqn:Hk; try discriminate.
    now apply insert_delete_id.
  - split; [now apply map_Forall_insert_2 |].
    rewrite bp_at_insert_true. destruct (decide (k = k)); [| contradiction].
    rewrite delete_insert_eq. apply delete_id.
    unfold bp_at in Hb.
    destruct (breakpoints !! k) as [v|] eqn:Hk; [| reflexivity].
    rewrite (map_Forall_lookup_1 _ _ _ _ Hall Hk) in Hb. discriminate.
Qed.

(** X8. [toggleBreakpoint] ignores a negative line number, so a map without
    negative keys never gets one; for a line number from 0 on it flips that
    line's breakpoint. *)
Theorem toggleBreakpoint_keys (lineNum : Z) (breakpoints : gmap Z bool) :
  (lineNum < 0 -> toggleBreakpoint lineNum breakpoints = breakpoints)
  /\ (0 <= lineNum ->
      bp_at (toggleBreakpoint lineNum breakpoints) lineNum
      = negb (bp_at breakpoints lineNum))
  /\ (map_Forall (fun k _ => 0 <= k) breakpoints ->
      map_Forall (fun k _ => 0 <= k) (toggleBreakpoint lineNum breakpoints)).
Proof.
  unfold toggleBreakpoint.
  destruct (Z.ltb_spec lineNum 0) as [Hneg|Hpos].
  - repeat split; [lia | auto].
  - split; [lia |]. split.
    + intros _. destruct (bp_at breakpoints lineNum) eqn:Hb.
      * rewrite bp_at_delete. destruct (decide (lineNum = lineNum));
          [reflexivity | contradiction].
      * rewrite bp_at_insert_true. destruct (decide (lineNum = lineNum));
          [reflexivity | contradiction].
    + intros Hall. destruct (bp_at breakpoints lineNum).
      * now apply map_Forall_delete.
      * now apply map_Forall_insert_2.
Qed.

(** ** Toggling and the instrumented document *)

Lemma written_lines_ext (bp1 bp2 : gmap Z bool) (lines : list string) :
  forall lineIndex,
    (forall (i : nat) line,
        lines !! i = Some line ->
        needs_trap bp1 (lineIndex + Z.of_nat i) line
        = needs_trap bp2 (lineIndex + Z.of_nat i) line) ->
    written_lines bp1 lineIndex lines = written_lines bp2 lineIndex lines.
Proof.
  intros lineIndex Hsame. rewrite !written_lines_blocks. f_equal.
  apply imap_ext. intros i line Hi. now rewrite (Hsame i line Hi).
Qed.

Lemma instruction_at_lookup (lines : list string) (i : nat) (line : string) :
  lines !! i = Some line ->
  instruction_at lines (Z.of_nat i) = instruction_bearing line.
Proof.
  intros Hi. unfold instruction_at. rewrite Nat2Z.id, Hi.
  destruct (Z.leb_spec 0 (Z.of_nat i)); [reflexivity | lia].
Qed.

(** X9. A click on a line that is not instruction-bearing (a blank line, a
    comment, a line past the end of the text) changes the breakpoint map but
    not the instrumented document. *)
Theorem press_off_instruction (blockNumber : Z) (breakpoints : gmap Z bool)
    (lines : list string) :
  instruction_at lines (blockNumber - 1) = false ->
  instrumented (lineNumberAreaMousePress blockNumber breakpoints) lines
  = instrumented breakpoints lines.
Proof.
  intros Hoff. apply written_lines_ext. intros i line Hi.
  rewrite Z.add_0_l, !needs_trap_unfold, bp_at_press.
  destruct (decide (Z.of_nat i = blockNumber - 1)) as [Heq|Hne]; [| reflexivity].
  rewrite <- Heq, (instruction_at_lookup _ _ _ Hi) in Hoff.
  now rewrite Hoff.
Qed.

(** X10. A click on an instruction-bearing line changes the length of the
    instrumented document by exactly one line: one more when the breakpoint
    is set, one less when it is removed. *)
Theorem press_on_instruction (blockNumber : Z) (breakpoints : gmap Z bool)
    (lines : list string) :
  instruction_at lines (blockNumber - 1) = true ->
  (length (instrumented (lineNumberAreaMousePress blockNumber breakpoints) lines)
   + (if bp_at breakpoints (blockNumber - 1) then 1 else 0)
   = length (instrumented breakpoints lines)
     + (if bp_at breakpoints (blockNumber - 1) then 0 else 1))%nat.
Proof.
  intros Hon. unfold instrumented.
  rewrite !written_lines_length, !trap_count_size.
  set (k := blockNumber - 1) in *.
  set (X := breakpointed_instructions breakpoints lines).
  assert (Hk : k ∈ X <-> bp_at breakpoints k = true).
  { unfold X. rewrite breakpointed_instructions_elem. tauto. }
  assert (Hset : breakpointed_instructions
                   (lineNumberAreaMousePress blockNumber breakpoints) lines
                 = if bp_at breakpoints k then X ∖ {[k]} else X ∪ {[k]}).
  { apply set_eq. intros i.
    rewrite breakpointed_instructions_elem, bp_at_press. fold k.
    assert (Hi : i ∈ X <-> bp_at breakpoints i = true
                            /\ instruction_at lines i = true)
      by apply breakpointed_instructions_elem.
    destruct (bp_at breakpoints k) eqn:Hb.
    - rewrite elem_of_difference, elem_of_singleton, Hi.
      destruct (decide (i = k)) as [->|Hne]; simpl; [| tauto].
      split; [intros [? _]; discriminate | tauto].
    - rewrite elem_of_union, elem_of_singleton, Hi.
      destruct (decide (i = k)) as [->|Hne]; simpl; [tauto |].
      split; [tauto |]. intros [? | ?]; [assumption | contradiction]. }
  rewrite Hset. destruct (bp_at breakpoints k) eqn:Hb.
  - assert (Hin : k ∈ X) by now apply Hk.
    rewrite size_difference by now apply singleton_subseteq_l.
    rewrite size_singleton.
    assert (0 < size X)%nat.
    { destruct (size X) eqn:Hs; [| lia].
      apply size_empty_iff in Hs. apply Hs in Hin.
      rewrite elem_of_empty in Hin. contradiction. }
    lia.
  - assert (Hnot : k ∉ X) by (rewrite Hk; discriminate).
    rewrite size_union by now apply disjoint_singleton_r.
    rewrite size_singleton. lia.
Qed.

(** ** insertBreakpoints and debugCode *)

Lemma Split_app_sep (a rest : string) (sep : ascii) :
  Split (a ++ String sep rest) sep = Split a sep ++ Split rest sep.
Proof.
  induction a as [|c a IH].
  - rewrite append_empty_l. simpl. now rewrite Ascii.eqb_refl.
  - rewrite append_cons. simpl. rewrite IH.
    destruct (Ascii.eqb c sep); [reflexivity |].
    pose proof (Split_nonempty a sep) as Hne.
    destruct (Split a sep) as [|h t]; [contradiction | reflexivity].
Qed.

Lemma Split_free (l : string) (sep : ascii) :
  free_of sep l = true -> Split l sep = [l].
Proof.
  induction l as [|c l IH]; [reflexivity |]. simpl. intros Hfree.
  apply andb_prop in Hfree as [Hc Hl]. apply negb_true_iff in Hc.
  now rewrite Hc, (IH Hl).
Qed.

Lemma Split_Join_pieces (ls : list string) (sep : ascii) :
  ls <> [] ->
  Split (Join ls sep) sep = concat (map (fun l => Split l sep) ls).
Proof.
  induction ls as [|e ls IH]; [contradiction |]. intros _.
  destruct ls as [|e' ls].
  - simpl. now rewrite app_nil_r.
  - change (Join (e :: e' :: ls) sep)
      with (e ++ String sep (Join (e' :: ls) sep))%string.
    rewrite Split_app_sep, IH by discriminate. reflexivity.
Qed.

Lemma Split_Join (ls : list string) (sep : ascii) :
  ls <> [] ->
  Forall (fun l => free_of sep l = true) ls ->
  Split (Join ls sep) sep = ls.
Proof.
  intros Hne Hfree. rewrite Split_Join_pieces by assumption.
  clear Hne. induction Hfree as [|l ls Hl _ IH]; [reflexivity |].
  simpl. now rewrite (Split_free _ _ Hl), IH.
Qed.

Lemma unlines_Join (ls : list string) :
  ls <> [] -> unlines ls = with_nl (Join ls nl).
Proof.
  induction ls as [|e ls IH]; [contradiction |]. intros _.
  destruct ls as [|e' ls]; [simpl; now rewrite append_empty_r |].
  change (unlines (e :: e' :: ls))
    with (with_nl e ++ unlines (e' :: ls))%string.
  rewrite IH by discriminate.
  change (Join (e :: e' :: ls) nl)
    with (e ++ String nl (Join (e' :: ls) nl))%string.
  unfold with_nl. rewrite !append_assoc_s. reflexivity.
Qed.

Lemma insertBreakpoints_lines_aux (breakpoints : gmap Z bool) (text : string) :
  Split (insertBreakpoints breakpoints text) nl
  = concat (imap (fun i line =>
                    if bool_decide (is_Some (breakpoints !! Z.of_nat i))
                    then [ebreak; line] else [line]) (Split text nl)).
Proof.
  unfold insertBreakpoints.
  rewrite Split_Join_pieces.
  2:{ intros Hnil. apply (f_equal length) in Hnil.
      unfold insertBreakpoints_tempLines in Hnil.
      rewrite length_imap in Hnil.
      pose proof (Split_nonempty text nl).
      destruct (Split text nl); [contradiction | discriminate]. }
  unfold insertBreakpoints_tempLines.
  change (map (fun l => Split l nl)) with (fmap (M:=list) (fun l => Split l nl)).
  rewrite fmap_imap. f_equal. apply imap_ext. intros i line Hi. cbn [compose].
  pose proof (Forall_lookup_1 _ _ _ _ (Split_pieces_free text nl) Hi) as Hfree.
  destruct (bool_decide (is_Some (breakpoints !! Z.of_nat i))).
  - unfold with_nl. rewrite append_assoc_s, append_cons, append_empty_l.
    rewrite Split_line by reflexivity. now rewrite (Split_free _ _ Hfree).
  - now apply Split_free.
Qed.





(** X13. The text [insertBreakpoints] writes, split into lines, is each
    line of the editor text in order, preceded by one [ebreak] line exactly
    when its index is a key of the breakpoint map, whatever the line holds;
    keys outside the text have no effect. *)
Theorem insertBreakpoints_lines (breakpoints : gmap Z bool) (text : string) :
  Split (insertBreakpoints breakpoints text) nl
  = concat (imap (fun i line =>
                    if bool_decide (is_Some (breakpoints !! Z.of_nat i))
                    then [ebreak; line] else [line]) (Split text nl)).
Proof. apply insertBreakpoints_lines_aux. Qed.

(** X14. When the keys of the breakpoint map inside the text are exactly the
    lines for which [debugCode] writes a trap (every breakpoint sits on an
    instruction-bearing line), both builders produce the same lines, and
    the text of [debugCode] is the text of [insertBreakpoints] with one line
    feed added at the end. *)
Theorem insertBreakpoints_agrees (breakpoints : gmap Z bool) (text : string) :
  (forall (i : nat) line,
      Split text nl !! i = Some line ->
      (is_Some (breakpoints !! Z.of_nat i)
       <-> needs_trap breakpoints (Z.of_nat i) line = true)) ->
  Split (insertBreakpoints breakpoints text) nl
  = instrumented breakpoints (Split text nl)
  /\ modifiedContent breakpoints (Split text nl)
     = with_nl (insertBreakpoints breakpoints text).
Proof.
  intros Hkeys.
  assert (Hlines : Split (insertBreakpoints breakpoints text) nl
                   = instrumented breakpoints (Split text nl)).
  { rewrite insertBreakpoints_lines_aux. unfold instrumented.
    rewrite written_lines_blocks. f_equal. apply imap_ext.
    intros i line Hi. rewrite Z.add_0_l.
    specialize (Hkeys i line Hi).
    destruct (needs_trap breakpoints (Z.of_nat i) line).
    - rewrite bool_decide_eq_true_2; [reflexivity | now apply Hkeys].
    - rewrite bool_decide_eq_false_2; [reflexivity |].
      intros Hsome. apply Hkeys in Hsome. discriminate. }
  split; [exact Hlines |].
  rewrite modifiedContent_unlines, <- Hlines.
  rewrite unlines_Join by apply Split_nonempty.
  now rewrite Join_Split.
Qed.

Section WellFormedTables.

(** A pseudo-instruction lowers to one or more real instructions. *)
Hypothesis pseudo_nonempty :
  forall m retFunc parts,
    PseudoToInstruction !! m = Some retFunc ->
    (1 <= length (retFunc parts))%nat.

Lemma instruction_bearing_weight (line : string) :
  instruction_bearing line = true -> 1 <= line_weight line.
Proof.
  unfold instruction_bearing, line_weight.
  destruct (blank_or_comment (TrimSpace line)); simpl; [discriminate |].
  destruct (Fields (TrimSpace line)) as [|m rest]; [discriminate |].
  intros ->.
  destruct (PseudoToInstruction !! m) as [retFunc|] eqn:Hm; [| lia].
  pose proof (pseudo_nonempty m retFunc (m :: rest) Hm). lia.
Qed.

(** Targets the scan cannot find: nothing starts at a count below 1,
    and nothing starts beyond the total. *)
Lemma getRelevantLine_not_found (lineNum : Z) (lines : list string) :
  lineNum <= 0 \/ instruction_count lines < lineNum ->
  getRelevantLine lineNum lines = (-1, trap_lines lines).
Proof.
  intros Hk.
  destruct (getRelevantLine_cases lineNum lines)
    as [[Hr _] | (p & l & _ & Hp & Hl & Hkp & _)]; [exact Hr |].
  exfalso.
  pose proof (instruction_count_nonneg (take p lines)) as Hnn.
  pose proof (instruction_count_take_le lines (S p)) as Hle.
  rewrite (take_S_r _ _ _ Hp), instruction_count_app in Hle.
  rewrite instruction_count_cons in Hle.
  pose proof (instruction_bearing_weight l Hl).
  change (instruction_count []) with 0 in Hle. lia.
Qed.

(** C6. A target beyond the total instruction count is not found: the
    scanner returns the line index [-1] (with every trap line counted),
    never an index of the sequence. *)
Theorem getRelevantLine_past_end (lineNum : Z) (lines : list string) :
  instruction_count lines < lineNum ->
  getRelevantLine lineNum lines = (-1, trap_lines lines).
Proof. intros Hk. apply getRelevantLine_not_found. now right. Qed.

(** X11. Round trip from a line to its target and back: for every
    instruction-bearing line, the target one above the instruction count of
    the lines before it resolves to that very line, with the trap lines
    before it as trap counter. *)
Theorem getRelevantLine_start_of_line (lines : list string) (p : nat)
    (line : string) :
  lines !! p = Some line ->
  instruction_bearing line = true ->
  getRelevantLine (instruction_count (take p lines) + 1) lines
  = (Z.of_nat p, trap_lines (take p lines)).
Proof.
  intros Hp Hl.
  destruct (getRelevantLine_cases (instruction_count (take p lines) + 1) lines)
    as [[_ Hall] | (q & l & Hr & Hq & Hlq & Hk & Hmin)].
  - exfalso. now apply (Hall p line Hp Hl).
  - destruct (lt_eq_lt_dec q p) as [[Hlt | ->] | Hgt]; [| exact Hr |].
    + exfalso.
      pose proof (instruction_count_take_mono lines (S q) p Hlt) as Hmono.
      rewrite (take_S_r _ _ _ Hq), instruction_count_app in Hmono.
      rewrite instruction_count_cons in Hmono.
      change (instruction_count []) with 0 in Hmono.
      pose proof (instruction_bearing_weight l Hlq). lia.
    + exfalso. now apply (Hmin p line Hgt Hp Hl).
Qed.

(** The trap mnemonic is a real instruction, not a pseudo-instruction. *)
Hypothesis ebreak_not_pseudo : PseudoToInstruction !! ebreak = None.

Lemma trap_le_weight (line : string) :
  (if is_trap_line line then 1 else 0) <= line_weight line.
Proof.
  pose proof (line_weight_nonneg line).
  destruct (is_trap_line line) eqn:Ht; [| lia].
  apply instruction_bearing_weight.
  unfold is_trap_line in Ht. now apply andb_prop in Ht as [? _].
Qed.

Lemma trap_lines_le_count (lines : list string) :
  trap_lines lines <= instruction_count lines.
Proof.
  induction lines as [|x lines IH]; [reflexivity |].
  rewrite trap_lines_cons, instruction_count_cons.
  pose proof (trap_le_weight x). lia.
Qed.

(** An inserted trap line advances both counters by the same amount. *)
Lemma ebreak_line_balance :
  line_weight ebreak = if is_trap_line ebreak then 1 else 0.
Proof.
  unfold is_trap_line, instruction_bearing, line_weight.
  change (TrimSpace ebreak) with ebreak.
  change (blank_or_comment ebreak) with false.
  change (Fields ebreak) with [ebreak].
  cbv iota beta. rewrite ebreak_not_pseudo. cbn [negb andb].
  rewrite String.eqb_refl, andb_true_r. reflexivity.
Qed.

Lemma written_lines_balance (breakpoints : gmap Z bool)
    (lines : list string) :
  forall lineIndex,
    instruction_count (written_lines breakpoints lineIndex lines)
    - trap_lines (written_lines breakpoints lineIndex lines)
    = instruction_count lines - trap_lines lines.
Proof.
  induction lines as [|line rest IH]; intros lineIndex; [reflexivity |].
  cbn [written_lines]. rewrite instruction_count_app, trap_lines_app.
  rewrite !instruction_count_cons, !trap_lines_cons.
  specialize (IH (lineIndex + 1)).
  destruct (needs_trap breakpoints lineIndex line).
  - rewrite instruction_count_cons, trap_lines_cons, ebreak_line_balance.
    change (instruction_count []) with 0.
    change (trap_lines []) with 0. lia.
  - change (instruction_count []) with 0.
    change (trap_lines []) with 0. lia.
Qed.

Lemma written_lines_traps (breakpoints : gmap Z bool) (lines : list string) :
  forall lineIndex,
    trap_lines lines
    <= trap_lines (written_lines breakpoints lineIndex lines).
Proof.
  induction lines as [|line rest IH]; intros lineIndex; [reflexivity |].
  cbn [written_lines]. rewrite trap_lines_app, !trap_lines_cons.
  specialize (IH (lineIndex + 1)).
  destruct (needs_trap breakpoints lineIndex line).
  - rewrite trap_lines_cons. change (trap_lines []) with 0.
    destruct (is_trap_line ebreak); lia.
  - change (trap_lines []) with 0. lia.
Qed.

(** For a target the source scan cannot find, the instrumented scan
    counts at least every trap line of the source. *)
Lemma debug_scan_traps (breakpoints : gmap Z bool) (lines : list string)
    (lineNum : Z) :
  lineNum <= 0 \/ instruction_count lines < lineNum ->
  trap_lines lines
  <= snd (getRelevantLine lineNum
            (instrumented breakpoints lines ++ [EmptyString])).
Proof.
  intros Hk. set (dbg := instrumented breakpoints lines ++ [EmptyString]).
  assert (Hic : instruction_count dbg - trap_lines dbg
                = instruction_count lines - trap_lines lines).
  { unfold dbg. rewrite instruction_count_app, trap_lines_app.
    pose proof (written_lines_balance breakpoints lines 0) as Hb.
    fold (instrumented breakpoints lines) in Hb.
    change (instruction_count [EmptyString]) with 0.
    change (trap_lines [EmptyString]) with 0. lia. }
  assert (Htl : trap_lines lines <= trap_lines dbg).
  { unfold dbg. rewrite trap_lines_app.
    pose proof (written_lines_traps breakpoints lines 0) as Hb.
    fold (instrumented breakpoints lines) in Hb.
    change (trap_lines [EmptyString]) with 0. lia. }
  destruct (getRelevantLine_cases lineNum dbg)
    as [[Hr _] | (p & l & Hr & _ & _ & Hkp & _)]; rewrite Hr; cbn [snd].
  - exact Htl.
  - pose proof (instruction_count_nonneg (take p dbg)) as Hnn.
    pose proof (trap_lines_le_count (drop p dbg)) as Hdrop.
    pose proof (take_drop p dbg) as Hsplit.
    assert (Hi : instruction_count dbg
                 = instruction_count (take p dbg)
                   + instruction_count (drop p dbg))
      by (now rewrite <- instruction_count_app, Hsplit).
    assert (Ht : trap_lines dbg
                 = trap_lines (take p dbg) + trap_lines (drop p dbg))
      by (now rewrite <- trap_lines_app, Hsplit).
    lia.
Qed.

(** X21. After [debugCode], resolving the target 0 or a target beyond the
    total instruction count of the source leaves a negative line in
    [currentHighline]: [HighlightLine] returns before moving the cursor or
    redrawing, and no block passes the highlight test of the paint routine.
    Whenever the computed line is below 1, [HighlightLine] performs no
    editor action. *)
Theorem HighlightLine_out_of_range (text : string)
    (breakpoints : gmap Z bool) (g : Globals) (lineNum : Z) :
  lineNum = 0 \/ instruction_count (Split text nl) < lineNum ->
  let r := HighlightLine lineNum (debugCode text breakpoints g) in
  currentHighline (fst r) < 0
  /\ snd r = []
  /\ (forall isDebugging blockNumber,
        0 <= blockNumber ->
        paints_highlight isDebugging (fst r) blockNumber = false)
  /\ (forall lineNum' g',
        currentHighline (fst (HighlightLine lineNum' g')) < 1 ->
        snd (HighlightLine lineNum' g') = []).
Proof.
  intros Hk r.
  assert (Hk' : lineNum <= 0 \/ instruction_count (Split text nl) < lineNum)
    by lia.
  destruct (debugCode_globals text breakpoints g) as [Hreal Hdbg].
  assert (Hline : currentHighline (fst r) < 0 /\ snd r = []).
  { subst r. rewrite HighlightLine_eq, Hreal, Hdbg.
    rewrite (getRelevantLine_not_found _ _ Hk').
    pose proof (debug_scan_traps breakpoints (Split text nl) lineNum Hk').
    cbn [fst snd currentHighline].
    split; [lia |].
    match goal with |- (if ?c <? 1 then _ else _) = _ =>
      destruct (Z.ltb_spec c 1); [reflexivity | lia] end. }
  destruct Hline as [Hneg Hact]. repeat split; try assumption.
  - intros isDebugging blockNumber Hb. unfold paints_highlight.
    destruct (Z.eqb_spec blockNumber (currentHighline (fst r)));
      [lia | apply andb_false_r].
  - intros lineNum' g'. rewrite HighlightLine_eq.
    cbn [fst snd currentHighline]. intros Hlt.
    apply Z.ltb_lt in Hlt. now rewrite Hlt.
Qed.

(** ** Alignment on dense programs *)

Section DenseAlignment.

(** The trap mnemonic is a key of the real-instruction table. *)
Hypothesis ebreak_real : is_Some (InstructionToOpType !! ebreak).

Lemma ebreak_line_facts :
  unit_line ebreak /\ is_trap_line ebreak = true.
Proof.
  assert (Hib : instruction_bearing ebreak = true).
  { unfold instruction_bearing. change (TrimSpace ebreak) with ebreak.
    change (blank_or_comment ebreak) with false.
    change (Fields ebreak) with [ebreak]. cbv iota beta. cbn [negb andb].
    unfold isInstruction. now rewrite bool_decide_eq_true_2. }
  assert (Ht : is_trap_line ebreak = true).
  { unfold is_trap_line. rewrite Hib. change (TrimSpace ebreak) with ebreak.
    change (Fields ebreak) with [ebreak]. reflexivity. }
  repeat split; try assumption.
  rewrite ebreak_line_balance, Ht. reflexivity.
Qed.

Lemma plain_instruction_facts (line : string) :
  plain_instruction line = true ->
  unit_line line /\ is_trap_line line = false.
Proof.
  unfold plain_instruction, unit_line. intros H.
  apply andb_prop in H as [H Hw]. apply andb_prop in H as [Hib Ht].
  apply negb_true_iff in Ht. apply Z.eqb_eq in Hw. tauto.
Qed.

Lemma instruction_count_unit (lines : list string) :
  Forall unit_line lines ->
  instruction_count lines = Z.of_nat (length lines).
Proof.
  induction 1 as [|l lines [_ Hw] _ IH]; [reflexivity |].
  rewrite instruction_count_cons, Hw, IH. cbn [length]. lia.
Qed.

Lemma trap_lines_plain (lines : list string) :
  Forall (fun l => plain_instruction l = true) lines ->
  trap_lines lines = 0.
Proof.
  induction 1 as [|l lines Hl _ IH]; [reflexivity |].
  rewrite trap_lines_cons, IH.
  destruct (plain_instruction_facts l Hl) as [_ ->]. reflexivity.
Qed.

(** On a sequence of unit lines the k-th line holds the k-th instruction. *)
Lemma getRelevantLine_unit (lines : list string) (k : nat) :
  Forall unit_line lines ->
  (k < length lines)%nat ->
  getRelevantLine (Z.of_nat k + 1) lines
  = (Z.of_nat k, trap_lines (take k lines)).
Proof.
  intros Hunit Hk.
  assert (Hcount : forall p, (p <= length lines)%nat ->
                     instruction_count (take p lines) = Z.of_nat p).
  { intros p Hp. rewrite instruction_count_unit by now apply Forall_take.
    rewrite length_take. lia. }
  destruct (lookup_lt_is_Some_2 lines k Hk) as [l Hl].
  destruct (getRelevantLine_cases (Z.of_nat k + 1) lines)
    as [[_ Hall] | (q & lq & Hr & Hq & _ & Hkq & _)].
  - exfalso. apply (Hall k l Hl).
    + now destruct (Forall_lookup_1 _ _ _ _ Hunit Hl).
    + rewrite Hcount by lia. reflexivity.
  - pose proof (lookup_lt_Some _ _ _ Hq).
    rewrite Hcount in Hkq by lia.
    assert (q = k) as -> by lia. exact Hr.
Qed.

Lemma written_lines_unit (breakpoints : gmap Z bool) (lines : list string) :
  Forall (fun l => plain_instruction l = true) lines ->
  forall lineIndex,
    Forall unit_line (written_lines breakpoints lineIndex lines)
    /\ trap_lines (written_lines breakpoints lineIndex lines)
       = Z.of_nat (trap_count breakpoints lineIndex lines).
Proof.
  destruct ebreak_line_facts as [Heu Het].
  induction 1 as [|l lines Hl _ IH]; intros lineIndex.
  - split; [constructor | reflexivity].
  - destruct (IH (lineIndex + 1)) as [IHu IHt].
    destruct (plain_instruction_facts l Hl) as [Hlu Hlt].
    cbn [written_lines trap_count].
    destruct (needs_trap breakpoints lineIndex l); cbn [app].
    + split;
        [constructor; [exact Heu | constructor; [exact Hlu | exact IHu]] |].
      rewrite !trap_lines_cons, Het, Hlt, IHt. lia.
    + split; [constructor; [exact Hlu | exact IHu] |].
      rewrite trap_lines_cons, Hlt, IHt. lia.
Qed.

(** X12. Alignment on a dense program.  When every source line is an
    instruction-bearing line of weight one that is not a trap, the target
    that [debugCode]'s program reaches at source line [i] (on its inserted
    trap, if any, or on the line itself) makes [HighlightLine] store [i],
    as long as [i] plus the traps written so far is still a line of the
    source. *)
Theorem HighlightLine_dense (text : string) (breakpoints : gmap Z bool)
    (g : Globals) (i t : nat) (line : string) :
  Forall (fun l => plain_instruction l = true) (Split text nl) ->
  Split text nl !! i = Some line ->
  (trap_count breakpoints 0 (take i (Split text nl)) <= t)%nat ->
  (t <= trap_count breakpoints 0 (take i (Split text nl))
        + (if needs_trap breakpoints (Z.of_nat i) line then 1 else 0))%nat ->
  (i + t < length (Split text nl))%nat ->
  currentHighline
    (fst (HighlightLine (Z.of_nat (i + t) + 1)
            (debugCode text breakpoints g)))
  = Z.of_nat i.
Proof.
  set (lines := Split text nl). intros Hplain Hi Hlo Hhi Hlen.
  set (before := trap_count breakpoints 0 (take i lines)) in *.
  destruct (debugCode_globals text breakpoints g) as [Hreal Hdbg].
  fold lines in Hreal, Hdbg.
  assert (Hunit : Forall unit_line lines).
  { eapply Forall_impl; [exact Hplain |]. intros l Hl.
    now destruct (plain_instruction_facts l Hl). }
  destruct (written_lines_unit breakpoints lines Hplain 0) as [Hiu _].
  fold (instrumented breakpoints lines) in Hiu.
  assert (Hilen : (length lines <= length (instrumented breakpoints lines))%nat).
  { unfold instrumented. rewrite written_lines_length. lia. }
  rewrite HighlightLine_eq, Hreal, Hdbg. cbn [fst currentHighline].
  unfold getRelevantLine at 3.
  rewrite (getRelevantLine_loop_app_blank _ _ _ empty_piece_not_instruction).
  fold (getRelevantLine (Z.of_nat (i + t) + 1) (instrumented breakpoints lines)).
  rewrite (getRelevantLine_unit lines (i + t) Hunit Hlen).
  rewrite (getRelevantLine_unit _ (i + t) Hiu) by lia.
  cbn [fst snd].
  rewrite trap_lines_plain by now apply Forall_take.
  assert (Htraps : trap_lines (take (i + t) (instrumented breakpoints lines))
                   = Z.of_nat t).
  { unfold instrumented.
    rewrite <- (take_drop_middle lines i line Hi), written_lines_app.
    assert (Hti : length (take i lines) = i)
      by (rewrite length_take; pose proof (lookup_lt_Some _ _ _ Hi); lia).
    rewrite Hti, Z.add_0_l.
    destruct (written_lines_unit breakpoints (take i lines)
                (Forall_take _ _ _ Hplain) 0) as [_ Hpre].
    fold before in Hpre.
    assert (Hprelen : length (written_lines breakpoints 0 (take i lines))
                      = (i + before)%nat)
      by (rewrite written_lines_length, Hti; reflexivity).
    cbn [written_lines].
    destruct (needs_trap breakpoints (Z.of_nat i) line).
    - destruct (decide (t = before)) as [->|Hne].
      + rewrite take_app_length' by lia. exact Hpre.
      + assert (t = S before) as -> by lia.
        change ([ebreak] ++ line :: ?r) with ([ebreak] ++ (line :: r)).
        rewrite app_assoc, take_app_length'.
        * rewrite trap_lines_app, Hpre, trap_lines_cons.
          destruct ebreak_line_facts as [_ ->].
          change (trap_lines []) with 0. lia.
        * rewrite length_app, Hprelen. simpl. lia.
    - assert (t = before) as -> by lia.
      rewrite take_app_length' by lia. exact Hpre. }
  rewrite Htraps. lia.
Qed.

Lemma written_lines_trap_lines (breakpoints : gmap Z bool)
    (lines : list string) :
  forall lineIndex,
    trap_lines (written_lines breakpoints lineIndex lines)
    = trap_lines lines + Z.of_nat (trap_count breakpoints lineIndex lines).
Proof.
  destruct ebreak_line_facts as [_ Het].
  induction lines as [|line rest IH]; intros lineIndex; [reflexivity |].
  cbn [written_lines trap_count]. specialize (IH (lineIndex + 1)).
  destruct (needs_trap breakpoints lineIndex line); cbn [app].
  - rewrite !trap_lines_cons, Het, IH. lia.
  - rewrite !trap_lines_cons, IH. lia.
Qed.

(** X20. The instrumented document holds exactly one more instruction and
    one more trap line than the source per breakpoint that falls on an
    instruction-bearing line; breakpoints elsewhere add nothing to what the
    engine executes. *)
Theorem instrumented_counts (breakpoints : gmap Z bool) (lines : list string) :
  instruction_count (instrumented breakpoints lines)
  = instruction_count lines
    + Z.of_nat (size (breakpointed_instructions breakpoints lines))
  /\ trap_lines (instrumented breakpoints lines)
     = trap_lines lines
       + Z.of_nat (size (breakpointed_instructions breakpoints lines)).
Proof.
  pose proof (written_lines_balance breakpoints lines 0) as Hbal.
  pose proof (written_lines_trap_lines breakpoints lines 0) as Htl.
  rewrite trap_count_size in Htl. unfold instrumented. lia.
Qed.

End DenseAlignment.

End WellFormedTables.

End Debugger.


(** ** The sample tables: scenarios, witnesses and counterexamples *)

Lemma sample_pseudo_nonempty :
  forall m retFunc parts,
    sample_PseudoToInstruction !! m = Some retFunc ->
    (1 <= length (retFunc parts))%nat.
Proof.
  intros m retFunc parts Hm. unfold sample_PseudoToInstruction in Hm.
  apply lookup_singleton_Some in Hm as [_ <-]. simpl. lia.
Qed.

Lemma sample_ebreak_not_pseudo : sample_PseudoToInstruction !! ebreak = None.
Proof. vm_compute. reflexivity. Qed.

(** The builder scenario of the spec: a breakpoint on the [ecall] line. *)
Example instrumented_scenario :
  instrumented sample_InstructionToOpType sample_PseudoToInstruction
    {[ 2 := true ]} ["li a0, 1"; "# comment"; "ecall"]
  = ["li a0, 1"; "# comment"; "ebreak"; "ecall"].
Proof. vm_compute. reflexivity. Qed.

(** What [debugCode] leaves in [debugFileSplit] for that scenario: the
    written lines and the empty piece after the last line feed. *)
Example debugFileSplit_scenario :
  debugFileSplit
    (debugCode sample_InstructionToOpType sample_PseudoToInstruction
       (Join ["li a0, 1"; "# comment"; "ecall"] nl) {[ 2 := true ]}
       initial_globals)
  = ["li a0, 1"; "# comment"; "ebreak"; "ecall"; ""].
Proof. vm_compute. reflexivity. Qed.

(** A breakpoint on a comment line inserts nothing in [debugCode]; the
    alternate builder prefixes the line all the same. *)
Example breakpoint_on_comment :
  instrumented sample_InstructionToOpType sample_PseudoToInstruction
    {[ 1 := true ]} ["li a0, 1"; "# comment"; "ecall"]
  = ["li a0, 1"; "# comment"; "ecall"]
  /\ insertBreakpoints_tempLines {[ 1 := true ]}
       ["li a0, 1"; "# comment"; "ecall"]
     = ["li a0, 1"; with_nl ebreak ++ "# comment"; "ecall"]%string.
Proof. vm_compute. split; reflexivity. Qed.

(** C2 (defect). The pseudo-instruction [la], lowering to two real
    instructions, on line 1, followed by [ecall] on line 2: the targets 1
    and 3 resolve to lines 1 and 2, but the target 2, inside the expansion,
    is reported as not found instead of resolving to line 1. *)
Theorem getRelevantLine_misses_expansion :
  getRelevantLine sample_InstructionToOpType sample_PseudoToInstruction 1
    ["# start"; "la a1, message"; "ecall"] = (1, 0)
  /\ getRelevantLine sample_InstructionToOpType sample_PseudoToInstruction 2
       ["# start"; "la a1, message"; "ecall"] = (-1, 0)
  /\ getRelevantLine sample_InstructionToOpType sample_PseudoToInstruction 3
       ["# start"; "la a1, message"; "ecall"] = (2, 0).
Proof. vm_compute. repeat split. Qed.

(** C8 (defect).  On [la a1, message; ecall], with [la] lowering to two
    instructions, the instruction count is 3 and the targets 1, 2, 3 are all
    in range, yet they resolve to the lines 0, -1, 1: the line index drops
    from 0 to -1 between the targets 1 and 2, because the target inside the
    expansion is missed. *)
Theorem getRelevantLine_dips_inside_expansion :
  instruction_count sample_InstructionToOpType sample_PseudoToInstruction
    ["la a1, message"; "ecall"] = 3
  /\ fst (getRelevantLine sample_InstructionToOpType
            sample_PseudoToInstruction 1 ["la a1, message"; "ecall"]) = 0
  /\ fst (getRelevantLine sample_InstructionToOpType
            sample_PseudoToInstruction 2 ["la a1, message"; "ecall"]) = -1
  /\ fst (getRelevantLine sample_InstructionToOpType
            sample_PseudoToInstruction 3 ["la a1, message"; "ecall"]) = 1
  /\ ~ (fst (getRelevantLine sample_InstructionToOpType
               sample_PseudoToInstruction 1 ["la a1, message"; "ecall"])
        <= fst (getRelevantLine sample_InstructionToOpType
                  sample_PseudoToInstruction 2 ["la a1, message"; "ecall"])).
Proof.
  vm_compute. repeat split. intros H. apply H. reflexivity.
Qed.

(** C4 (defect).  A breakpoint on the comment line of
    [li a0, 1; # comment; ecall]: no breakpoint falls on an
    instruction-bearing line, and [debugCode] writes the 3 source lines, as
    the length invariant says; [insertBreakpoints] writes 4 lines, with a
    trap before the comment. *)
Theorem insertBreakpoints_extra_line :
  length (Split (Join ["li a0, 1"; "# comment"; "ecall"] nl) nl) = 3%nat
  /\ size (breakpointed_instructions sample_InstructionToOpType
             sample_PseudoToInstruction {[ 1 := true ]}
             (Split (Join ["li a0, 1"; "# comment"; "ecall"] nl) nl)) = 0%nat
  /\ instrumented sample_InstructionToOpType sample_PseudoToInstruction
       {[ 1 := true ]} (Split (Join ["li a0, 1"; "# comment"; "ecall"] nl) nl)
     = ["li a0, 1"; "# comment"; "ecall"]
  /\ Split (insertBreakpoints {[ 1 := true ]}
              (Join ["li a0, 1"; "# comment"; "ecall"] nl)) nl
     = ["li a0, 1"; "ebreak"; "# comment"; "ecall"].
Proof. vm_compute. repeat split. Qed.

(** C5 (defect).  The text [ecall; li a0, 1] without breakpoints and the
    target 1, the first call of a debug session: the computed line is 0,
    below 1, and [HighlightLine] returns at its guard without any editor
    action; but it has already stored 0 in [currentHighline], and the paint
    routine of the line-number area highlights block 0. *)
Theorem HighlightLine_stores_line_zero :
  currentHighline
    (fst (HighlightLine sample_InstructionToOpType sample_PseudoToInstruction 1
            (debugCode sample_InstructionToOpType sample_PseudoToInstruction
               (Join ["ecall"; "li a0, 1"] nl) ∅ initial_globals))) = 0
  /\ snd (HighlightLine sample_InstructionToOpType sample_PseudoToInstruction 1
            (debugCode sample_InstructionToOpType sample_PseudoToInstruction
               (Join ["ecall"; "li a0, 1"] nl) ∅ initial_globals)) = []
  /\ paints_highlight true
       (fst (HighlightLine sample_InstructionToOpType
               sample_PseudoToInstruction 1
               (debugCode sample_InstructionToOpType
                  sample_PseudoToInstruction
                  (Join ["ecall"; "li a0, 1"] nl) ∅ initial_globals))) 0
     = true.
Proof. vm_compute. repeat split. Qed.

Lemma getRelevantLine_past_end_witness :
  instruction_count sample_InstructionToOpType sample_PseudoToInstruction
    ["la a1, message"; "ecall"] < 4
  /\ getRelevantLine sample_InstructionToOpType sample_PseudoToInstruction 4
       ["la a1, message"; "ecall"]
     = (-1, trap_lines sample_InstructionToOpType sample_PseudoToInstruction
              ["la a1, message"; "ecall"]).
Proof.
  split; [vm_compute; reflexivity |].
  apply (getRelevantLine_past_end _ _ sample_pseudo_nonempty).
  vm_compute. reflexivity.
Defined.

(** C7 as stated fails: the scan for the first instruction of
    [ebreak; ecall] returns line 0 with trap counter 0, although line 0 is a
    trap line. *)
Lemma getRelevantLine_trap_on_returned_line :
  getRelevantLine sample_InstructionToOpType sample_PseudoToInstruction 1
    ["ebreak"; "ecall"] = (0, 0)
  /\ trap_lines sample_InstructionToOpType sample_PseudoToInstruction
       (take (S (Z.to_nat 0)) ["ebreak"; "ecall"]) = 1
  /\ ~ (forall lineNum lines j n,
          getRelevantLine sample_InstructionToOpType
            sample_PseudoToInstruction lineNum lines = (j, n) ->
          0 <= j ->
          n = trap_lines sample_InstructionToOpType sample_PseudoToInstruction
                (take (S (Z.to_nat j)) lines)).
Proof.
  split; [vm_compute; reflexivity |]. split; [vm_compute; reflexivity |].
  intros Hclaim.
  specialize (Hclaim 1 ["ebreak"; "ecall"] 0 0).
  vm_compute in Hclaim.
  assert (H01 : 0 = 1) by (apply Hclaim; [reflexivity | discriminate]).
  discriminate H01.
Qed.

Lemma getRelevantLine_traps_before_witness :
  getRelevantLine sample_InstructionToOpType sample_PseudoToInstruction 3
    ["ebreak"; "ebreak"; "ecall"] = (2, 2)
  /\ 0 <= 2
  /\ 2 = trap_lines sample_InstructionToOpType sample_PseudoToInstruction
           (take (Z.to_nat 2) ["ebreak"; "ebreak"; "ecall"]).
Proof.
  split; [vm_compute; reflexivity |]. split; [lia |].
  apply (getRelevantLine_traps_before _ _ 3 ["ebreak"; "ebreak"; "ecall"] 2 2).
  - vm_compute. reflexivity.
  - lia.
Defined.

Lemma getRelevantLine_monotone_witness :
  1 <= 2
  /\ 0 <= fst (getRelevantLine sample_InstructionToOpType
                 sample_PseudoToInstruction 2
                 ["li a0, 1"; "# comment"; "ecall"])
  /\ fst (getRelevantLine sample_InstructionToOpType
            sample_PseudoToInstruction 1 ["li a0, 1"; "# comment"; "ecall"])
     <= fst (getRelevantLine sample_InstructionToOpType
               sample_PseudoToInstruction 2
               ["li a0, 1"; "# comment"; "ecall"]).
Proof.
  split; [lia |]. split; [vm_compute; discriminate |].
  apply (getRelevantLine_monotone _ _ ["li a0, 1"; "# comment"; "ecall"] 1 2).
  - lia.
  - vm_compute. discriminate.
Defined.

Lemma HighlightLine_out_of_range_witness :
  (3 = 0
   \/ instruction_count sample_InstructionToOpType sample_PseudoToInstruction
        (Split (Join ["ebreak"; "ecall"] nl) nl) < 3)
  /\ currentHighline
       (fst (HighlightLine sample_InstructionToOpType
               sample_PseudoToInstruction 3
               (debugCode sample_InstructionToOpType
                  sample_PseudoToInstruction (Join ["ebreak"; "ecall"] nl)
                  {[ 1 := true ]} initial_globals))) < 0.
Proof.
  split; [right; vm_compute; reflexivity |].
  apply (HighlightLine_out_of_range _ _ sample_pseudo_nonempty
           sample_ebreak_not_pseudo (Join ["ebreak"; "ecall"] nl)
           {[ 1 := true ]} initial_globals 3).
  right. vm_compute. reflexivity.
Defined.

(** ** AddRecentFile *)

Lemma occurrences_app (filePath : string) (a b : list string) :
  occurrences filePath (a ++ b)
  = (occurrences filePath a + occurrences filePath b)%nat.
Proof. unfold occurrences. now rewrite filter_app, length_app. Qed.

Lemma occurrences_cons (filePath p : string) (l : list string) :
  occurrences filePath (p :: l)
  = ((if decide (p = filePath) then 1 else 0) + occurrences filePath l)%nat.
Proof.
  unfold occurrences. rewrite filter_cons.
  destruct (decide (p = filePath)); reflexivity.
Qed.

Lemma occurrences_take (filePath : string) (n : nat) (l : list string) :
  (occurrences filePath (take n l) <= occurrences filePath l)%nat.
Proof.
  rewrite <- (take_drop n l) at 2. rewrite occurrences_app. lia.
Qed.

Lemma occurrences_absent (filePath : string) (l : list string) :
  filePath ∉ l -> occurrences filePath l = 0%nat.
Proof.
  induction l as [|p l IH]; intros Hnot; [reflexivity |].
  rewrite occurrences_cons. apply not_elem_of_cons in Hnot as [Hne Hl].
  destruct (decide (p = filePath)); [congruence |]. now rewrite IH.
Qed.

(** The range loop either finds no entry equal to [filePath], or stops at
    the first one and rebuilds the list around it. *)
Lemma AddRecentFile_loop_spec (filePath : string) (rest : list string) :
  forall seen,
    match AddRecentFile_loop filePath seen rest with
    | None => filePath ∉ rest
    | Some moved =>
        exists a b, rest = a ++ filePath :: b /\ (filePath ∉ a)
                    /\ moved = filePath :: seen ++ a ++ b
    end.
Proof.
  induction rest as [|p rest IH]; intros seen; simpl.
  - apply not_elem_of_nil.
  - destruct (String.eqb_spec p filePath) as [->|Hne].
    + exists [], rest. repeat split. apply not_elem_of_nil.
    + specialize (IH (seen ++ [p])).
      destruct (AddRecentFile_loop filePath (seen ++ [p]) rest) as [moved|].
      * destruct IH as (a & b & -> & Ha & ->).
        exists (p :: a), b. repeat split.
        -- apply not_elem_of_cons. split; [congruence | exact Ha].
        -- now rewrite <- app_assoc.
      * apply not_elem_of_cons. split; [congruence | exact IH].
Qed.

(** C10 as stated fails: from a list of two entries that holds [a.s] twice,
    [AddRecentFile] moves the first occurrence to the front and the path
    still occurs twice. *)
Lemma AddRecentFile_keeps_duplicate :
  AddRecentFile "a.s" ["a.s"; "a.s"] = ["a.s"; "a.s"]
  /\ occurrences "a.s" (AddRecentFile "a.s" ["a.s"; "a.s"]) = 2%nat
  /\ ~ (forall filePath RecentFiles,
          (length RecentFiles <= 10)%nat ->
          occurrences filePath (AddRecentFile filePath RecentFiles) = 1%nat).
Proof.
  split; [vm_compute; reflexivity |]. split; [vm_compute; reflexivity |].
  intros Hclaim. specialize (Hclaim "a.s" ["a.s"; "a.s"]).
  vm_compute in Hclaim.
  assert (H21 : 2%nat = 1%nat) by (apply Hclaim; lia).
  discriminate H21.
Qed.

(** C10 (amended). From a list of at most 10 entries in which [filePath]
    occurs at most once, the list after [AddRecentFile] has at most 10
    entries, starts with [filePath] and holds it exactly once; an entry
    already present is moved to the front, the others keeping their order;
    a new entry is put in front and the list cut to 10. *)
Theorem AddRecentFile_front (filePath : string) (RecentFiles : list string) :
  (length RecentFiles <= 10)%nat ->
  (occurrences filePath RecentFiles <= 1)%nat ->
  let after := AddRecentFile filePath RecentFiles in
  (length after <= 10)%nat
  /\ head after = Some filePath
  /\ occurrences filePath after = 1%nat
  /\ (filePath ∈ RecentFiles ->
      exists a b, RecentFiles = a ++ filePath :: b /\ after = filePath :: a ++ b)
  /\ (filePath ∉ RecentFiles -> after = take 10 (filePath :: RecentFiles)).
Proof.
  intros Hlen Hocc after. subst after. unfold AddRecentFile.
  pose proof (AddRecentFile_loop_spec filePath RecentFiles []) as Hspec.
  destruct (AddRecentFile_loop filePath [] RecentFiles) as [moved|].
  - destruct Hspec as (a & b & -> & Ha & ->). simpl.
    rewrite occurrences_app, occurrences_cons in Hocc.
    rewrite length_app in Hlen. simpl in Hlen.
    destruct (decide (filePath = filePath)) as [_|]; [| congruence].
    repeat split.
    + rewrite length_app. lia.
    + rewrite occurrences_cons, occurrences_app.
      destruct (decide (filePath = filePath)); [lia | congruence].
    + intros _. exists a, b. split; reflexivity.
    + intros Hnot. exfalso. apply Hnot, elem_of_app. right. left.
  - change ([filePath] ++ RecentFiles) with (filePath :: RecentFiles).
    assert (Htake : take 10 (filePath :: RecentFiles) = filePath :: take 9 RecentFiles)
      by reflexivity.
    destruct (Z.ltb_spec 10 (Z.of_nat (length (filePath :: RecentFiles))))
      as [Hlong|Hshort].
    + rewrite Htake. repeat split.
      * simpl. rewrite length_take. lia.
      * rewrite occurrences_cons.
        pose proof (occurrences_take filePath 9 RecentFiles).
        rewrite (occurrences_absent _ _ Hspec) in *.
        destruct (decide (filePath = filePath)); [lia | congruence].
      * intros Hin. contradiction.
    + cbn [length] in Hshort.
      assert (Hall : take 10 (filePath :: RecentFiles) = filePath :: RecentFiles)
        by (apply take_ge; simpl; lia).
      rewrite Hall. repeat split.
      * simpl. lia.
      * rewrite occurrences_cons, (occurrences_absent _ _ Hspec).
        destruct (decide (filePath = filePath)); [lia | congruence].
      * intros Hin. contradiction.
Qed.

Lemma AddRecentFile_front_witness :
  (length ["b.s"; "a.s"; "c.s"] <= 10)%nat
  /\ (occurrences "a.s" ["b.s"; "a.s"; "c.s"] <= 1)%nat
  /\ head (AddRecentFile "a.s" ["b.s"; "a.s"; "c.s"]) = Some "a.s".
Proof.
  split; [simpl; lia |]. split; [vm_compute; lia |].
  apply (AddRecentFile_front "a.s" ["b.s"; "a.s"; "c.s"]).
  - simpl. lia.
  - vm_compute. lia.
Defined.

(** ** Further facts about AddRecentFile *)

Lemma AddRecentFile_head (filePath : string) (RecentFiles : list string) :
  exists rest, AddRecentFile filePath RecentFiles = filePath :: rest.
Proof.
  unfold AddRecentFile.
  pose proof (AddRecentFile_loop_spec filePath RecentFiles []) as Hspec.
  destruct (AddRecentFile_loop filePath [] RecentFiles) as [moved|].
  - destruct Hspec as (a & b & _ & _ & ->). now exists (a ++ b).
  - change ([filePath] ++ RecentFiles) with (filePath :: RecentFiles).
    destruct (10 <? Z.of_nat (length (filePath :: RecentFiles))).
    + now exists (take 9 RecentFiles).
    + now exists RecentFiles.
Qed.

(** X15. [AddRecentFile] is idempotent: adding the same path a second time
    leaves the list as the first call made it, for every starting list. *)
Theorem AddRecentFile_idempotent (filePath : string)
    (RecentFiles : list string) :
  AddRecentFile filePath (AddRecentFile filePath RecentFiles)
  = AddRecentFile filePath RecentFiles.
Proof.
  destruct (AddRecentFile_head filePath RecentFiles) as [rest ->].
  unfold AddRecentFile. simpl. now rewrite String.eqb_refl.
Qed.

Lemma AddRecentFile_step (filePath : string) (RecentFiles : list string) :
  NoDup RecentFiles ->
  (length RecentFiles <= 10)%nat ->
  NoDup (AddRecentFile filePath RecentFiles)
  /\ (length (AddRecentFile filePath RecentFiles) <= 10)%nat.
Proof.
  intros Hnd Hlen. unfold AddRecentFile.
  pose proof (AddRecentFile_loop_spec filePath RecentFiles []) as Hspec.
  destruct (AddRecentFile_loop filePath [] RecentFiles) as [moved|].
  - destruct Hspec as (a & b & -> & Ha & ->). simpl. split.
    + apply NoDup_app in Hnd as (Hna & Hab & Hpb).
      apply NoDup_cons in Hpb as [Hpb Hnb].
      apply NoDup_cons. split.
      * rewrite elem_of_app. intros [?|?]; contradiction.
      * apply NoDup_app. repeat split; try assumption.
        intros x Hx Hxb. apply (Hab x Hx). now right.
    + rewrite length_app in *. simpl in *. lia.
  - change ([filePath] ++ RecentFiles) with (filePath :: RecentFiles).
    assert (Hnd' : NoDup (filePath :: RecentFiles))
      by (apply NoDup_cons; split; assumption).
    destruct (Z.ltb_spec 10 (Z.of_nat (length (filePath :: RecentFiles)))).
    + split.
      * eapply sublist_NoDup; [exact Hnd' | apply sublist_take].
      * rewrite length_take. lia.
    + split; [exact Hnd' | lia].
Qed.

(** X16. Starting from a list without duplicates of at most 10 entries (the
    default preferences hold none), any sequence of [AddRecentFile] calls
    keeps the list free of duplicates and within 10 entries, and the path of
    the last call is its first entry, the file reopened at the next
    start. *)
Theorem AddRecentFile_sequence (paths RecentFiles : list string) :
  NoDup RecentFiles ->
  (length RecentFiles <= 10)%nat ->
  let final := foldl (fun files path => AddRecentFile path files)
                 RecentFiles paths in
  NoDup final
  /\ (length final <= 10)%nat
  /\ (forall path, last paths = Some path -> head final = Some path).
Proof.
  intros Hnd Hlen. cbv zeta.
  induction paths as [|path paths IH] using rev_ind.
  - simpl. repeat split; try assumption. intros path Hlast. discriminate.
  - rewrite foldl_snoc. destruct IH as (IHnd & IHlen & _).
    destruct (AddRecentFile_step path _ IHnd IHlen) as [Hnd' Hlen'].
    repeat split; try assumption.
    intros path' Hlast. rewrite last_snoc in Hlast. injection Hlast as <-.
    destruct (AddRecentFile_head path
                (foldl (fun files path0 => AddRecentFile path0 files)
                   RecentFiles paths)) as [rest ->].
    reflexivity.
Qed.

(** X17. [AddRecentFile] never invents an entry: every entry afterwards is
    the path or was in the list.  It loses none either unless the list is
    full and the path is new: with fewer than 10 entries, or with the path
    already present, every former entry is still there. *)
Theorem AddRecentFile_entries (filePath : string) (RecentFiles : list string) :
  (forall x, x ∈ AddRecentFile filePath RecentFiles ->
             x = filePath \/ x ∈ RecentFiles)
  /\ ((length RecentFiles < 10)%nat \/ filePath ∈ RecentFiles ->
      forall x, x ∈ RecentFiles -> x ∈ AddRecentFile filePath RecentFiles).
Proof.
  unfold AddRecentFile.
  pose proof (AddRecentFile_loop_spec filePath RecentFiles []) as Hspec.
  destruct (AddRecentFile_loop filePath [] RecentFiles) as [moved|].
  - destruct Hspec as (a & b & -> & _ & ->). simpl. split.
    + intros x. rewrite elem_of_cons, !elem_of_app, elem_of_cons. tauto.
    + intros _ x. rewrite elem_of_cons, !elem_of_app, elem_of_cons. tauto.
  - change ([filePath] ++ RecentFiles) with (filePath :: RecentFiles).
    destruct (Z.ltb_spec 10 (Z.of_nat (length (filePath :: RecentFiles))))
      as [Hlong|Hshort].
    + split.
      * intros x Hx. apply subseteq_take in Hx.
        now apply elem_of_cons in Hx.
      * cbn [length] in Hlong. intros [Hlt|Hin]; [lia | contradiction].
    + split.
      * intros x Hx. now apply elem_of_cons in Hx.
      * intros _ x Hx. now right.
Qed.

(** ** loadBreakpointsFromFile *)

Lemma loadBreakpoints_loop_lookup (lines : list string) :
  forall (i : Z) (breakpoints : gmap Z bool) (k : Z),
    loadBreakpoints_loop i lines breakpoints !! k
    = match (if decide (i <= k) then lines !! Z.to_nat (k - i) else None) with
      | Some line =>
          if String.eqb (TrimSpace line) ebreak then Some true
          else breakpoints !! k
      | None => breakpoints !! k
      end.
Proof.
  induction lines as [|line rest IH]; intros i bp k.
  - simpl. destruct (decide (i <= k)); [now rewrite lookup_nil | reflexivity].
  - cbn [loadBreakpoints_loop]. rewrite IH.
    destruct (decide (i <= k)) as [Hik|Hik].
    + destruct (decide (k = i)) as [->|Hne].
      * rewrite Z.sub_diag.
        replace ((line :: rest) !! Z.to_nat 0) with (Some line) by reflexivity.
        destruct (decide (i + 1 <= i)); [lia |].
        destruct (String.eqb (TrimSpace line) ebreak);
          [apply lookup_insert_eq | reflexivity].
      * destruct (decide (i + 1 <= k)); [| lia].
        replace (Z.to_nat (k - i)) with (S (Z.to_nat (k - (i + 1)))) by lia.
        replace ((line :: rest) !! S (Z.to_nat (k - (i + 1))))
          with (rest !! Z.to_nat (k - (i + 1))) by reflexivity.
        destruct (rest !! Z.to_nat (k - (i + 1))) as [later|].
        -- destruct (String.eqb (TrimSpace later) ebreak); [reflexivity |].
           destruct (String.eqb (TrimSpace line) ebreak);
             [now rewrite lookup_insert_ne | reflexivity].
        -- destruct (String.eqb (TrimSpace line) ebreak);
             [now rewrite lookup_insert_ne | reflexivity].
    + destruct (decide (i + 1 <= k)); [lia |].
      destruct (String.eqb (TrimSpace line) ebreak);
        [rewrite lookup_insert_ne by lia; reflexivity | reflexivity].
Qed.

(** X18. For a file that is not an assembly file [loadBreakpointsFromFile]
    leaves the breakpoints alone.  For an assembly file it replaces them:
    afterwards a line has a breakpoint exactly when it is a line of the file
    whose trimmed text is [ebreak], and every entry holds [true]. *)
Theorem loadBreakpointsFromFile_spec (currentFile content : string)
    (breakpoints : gmap Z bool) :
  (isAssemblyFile currentFile = false ->
   loadBreakpointsFromFile currentFile content breakpoints = breakpoints)
  /\ (isAssemblyFile currentFile = true ->
      map_Forall (fun _ v => v = true)
        (loadBreakpointsFromFile currentFile content breakpoints)
      /\ forall k,
           bp_at (loadBreakpointsFromFile currentFile content breakpoints) k
           = true
           <-> 0 <= k
               /\ exists line, Split content nl !! Z.to_nat k = Some line
                               /\ TrimSpace line = ebreak).
Proof.
  unfold loadBreakpointsFromFile. split; intros Hasm; rewrite Hasm; simpl;
    [reflexivity |].
  assert (Hlookup : forall k,
             loadBreakpoints_loop 0 (Split content nl) ∅ !! k
             = match (if decide (0 <= k)
                      then Split content nl !! Z.to_nat k else None) with
               | Some line =>
                   if String.eqb (TrimSpace line) ebreak then Some true
                   else None
               | None => None
               end).
  { intros k. rewrite loadBreakpoints_loop_lookup, Z.sub_0_r, lookup_empty.
    reflexivity. }
  split.
  - apply map_Forall_lookup. intros k v. rewrite Hlookup.
    destruct (decide (0 <= k)) as [Hk|Hk]; [| discriminate].
    destruct (Split content nl !! Z.to_nat k) as [ln|]; [| discriminate].
    destruct (String.eqb (TrimSpace ln) ebreak); [| discriminate].
    now intros [= <-].
  - intros k. unfold bp_at. rewrite Hlookup.
    destruct (decide (0 <= k)) as [Hk|Hk].
    + destruct (Split content nl !! Z.to_nat k) as [ln|].
      * destruct (String.eqb_spec (TrimSpace ln) ebreak) as [He|He]; simpl.
        -- split; [intros _; split; [exact Hk | now exists ln] | reflexivity].
        -- split; [discriminate |]. intros (_ & l' & [= <-] & ?). contradiction.
      * simpl. split; [discriminate |]. intros (_ & l' & ? & _). discriminate.
    + simpl. split; [discriminate | intros [? _]; contradiction].
Qed.

(** ** setTerminal *)

(** X19. The terminal text after [setTerminal] has at most 50 lines: they
    are the last 50 lines of the old text followed by the new message (all
    of them when there are no more than 50), and with no more than 50 lines
    the text is the old text followed by the message, unchanged. *)
Theorem setTerminal_lines (old newMSG : string) :
  let all := Split (old ++ newMSG) nl in
  Split (setTerminal old newMSG) nl = drop (length all - 50) all
  /\ (length (Split (setTerminal old newMSG) nl) <= 50)%nat
  /\ ((length all <= 50)%nat ->
      setTerminal old newMSG = (old ++ newMSG)%string).
Proof.
  intros all. unfold setTerminal. cbv zeta. fold all.
  assert (Hne : all <> []) by apply Split_nonempty.
  assert (Hfree : Forall (fun l => free_of nl l = true) all)
    by apply Split_pieces_free.
  assert (Hkept : (if (50 <? length all)%nat
                   then drop (length all - 50) all else all)
                  = drop (length all - 50) all).
  { destruct (Nat.ltb_spec 50 (length all)); [reflexivity |].
    replace (length all - 50)%nat with 0%nat by lia. reflexivity. }
  rewrite Hkept.
  assert (Hsplit : Split (Join (drop (length all - 50) all) nl) nl
                   = drop (length all - 50) all).
  { apply Split_Join; [| now apply Forall_drop].
    intros Hnil. apply (f_equal length) in Hnil.
    rewrite length_drop in Hnil. simpl in Hnil.
    destruct all; [contradiction | simpl in Hnil; lia]. }
  rewrite Hsplit. repeat split.
  - rewrite length_drop. lia.
  - intros Hshort. replace (length all - 50)%nat with 0%nat by lia.
    rewrite drop_0. apply Join_Split.
Qed.

(** ** Instances on the sample tables *)

Lemma sample_ebreak_real : is_Some (sample_InstructionToOpType !! ebreak).
Proof. vm_compute. eauto. Qed.

Lemma getRelevantLine_strict_witness :
  1 < 2
  /\ fst (getRelevantLine sample_InstructionToOpType
            sample_PseudoToInstruction 1 ["li a0, 1"; "# comment"; "ecall"])
     < fst (getRelevantLine sample_InstructionToOpType
              sample_PseudoToInstruction 2 ["li a0, 1"; "# comment"; "ecall"]).
Proof.
  split; [lia |].
  apply (getRelevantLine_strict _ _ ["li a0, 1"; "# comment"; "ecall"] 1 2).
  - lia.
  - vm_compute. discriminate.
  - vm_compute. discriminate.
Defined.

Lemma getRelevantLine_app_blank_witness :
  getRelevantLine sample_InstructionToOpType sample_PseudoToInstruction 2
    (["li a0, 1"; "ecall"] ++ [""; "# end"; "message:"])
  = getRelevantLine sample_InstructionToOpType sample_PseudoToInstruction 2
      ["li a0, 1"; "ecall"].
Proof.
  apply (getRelevantLine_app_blank _ _ 2 ["li a0, 1"; "ecall"]
           [""; "# end"; "message:"]).
  repeat constructor.
Defined.

Lemma getRelevantLine_app_found_witness :
  getRelevantLine sample_InstructionToOpType sample_PseudoToInstruction 1
    (["li a0, 1"] ++ ["ebreak"; "ecall"])
  = getRelevantLine sample_InstructionToOpType sample_PseudoToInstruction 1
      ["li a0, 1"].
Proof.
  apply (getRelevantLine_app_found _ _ 1 ["li a0, 1"] ["ebreak"; "ecall"]).
  vm_compute. discriminate.
Defined.

Lemma HighlightLine_no_trap_witness :
  currentHighline
    (fst (HighlightLine sample_InstructionToOpType sample_PseudoToInstruction 1
            (debugCode sample_InstructionToOpType sample_PseudoToInstruction
               (Join ["# start"; "ecall"] nl) {[ 0 := true ]}
               initial_globals)))
  = fst (getRelevantLine sample_InstructionToOpType
           sample_PseudoToInstruction 1
           (Split (Join ["# start"; "ecall"] nl) nl)).
Proof.
  apply (HighlightLine_no_trap _ _ (Join ["# start"; "ecall"] nl)
           {[ 0 := true ]} initial_globals 1).
  vm_compute. reflexivity.
Defined.

Lemma lineNumberAreaMousePress_twice_witness :
  lineNumberAreaMousePress 3 (lineNumberAreaMousePress 3 {[ 2 := true ]})
  = {[ 2 := true ]}.
Proof.
  apply (lineNumberAreaMousePress_twice 3 {[ 2 := true ]}).
  apply map_Forall_insert_2; [reflexivity | apply map_Forall_empty].
Defined.

Lemma press_off_instruction_witness :
  instrumented sample_InstructionToOpType sample_PseudoToInstruction
    (lineNumberAreaMousePress 2 ∅) ["li a0, 1"; "# comment"; "ecall"]
  = instrumented sample_InstructionToOpType sample_PseudoToInstruction
      ∅ ["li a0, 1"; "# comment"; "ecall"].
Proof.
  apply (press_off_instruction _ _ 2 ∅ ["li a0, 1"; "# comment"; "ecall"]).
  vm_compute. reflexivity.
Defined.

Lemma press_on_instruction_witness :
  (length (instrumented sample_InstructionToOpType sample_PseudoToInstruction
             (lineNumberAreaMousePress 3 ∅)
             ["li a0, 1"; "# comment"; "ecall"])
   + (if bp_at ∅ (3 - 1) then 1 else 0)
   = length (instrumented sample_InstructionToOpType
               sample_PseudoToInstruction ∅
               ["li a0, 1"; "# comment"; "ecall"])
     + (if bp_at ∅ (3 - 1) then 0 else 1))%nat.
Proof.
  apply (press_on_instruction _ _ 3 ∅ ["li a0, 1"; "# comment"; "ecall"]).
  vm_compute. reflexivity.
Defined.

Lemma getRelevantLine_start_of_line_witness :
  getRelevantLine sample_InstructionToOpType sample_PseudoToInstruction
    (instruction_count sample_InstructionToOpType sample_PseudoToInstruction
       (take 2 ["# start"; "la a1, message"; "ecall"]) + 1)
    ["# start"; "la a1, message"; "ecall"]
  = (Z.of_nat 2,
     trap_lines sample_InstructionToOpType sample_PseudoToInstruction
       (take 2 ["# start"; "la a1, message"; "ecall"])).
Proof.
  apply (getRelevantLine_start_of_line _ _ sample_pseudo_nonempty
           ["# start"; "la a1, message"; "ecall"] 2 "ecall").
  - reflexivity.
  - vm_compute. reflexivity.
Defined.

Lemma HighlightLine_dense_witness :
  currentHighline
    (fst (HighlightLine sample_InstructionToOpType sample_PseudoToInstruction
            (Z.of_nat (1 + 1) + 1)
            (debugCode sample_InstructionToOpType sample_PseudoToInstruction
               (Join ["li a0, 1"; "ecall"; "addi a0, a0, 1"] nl)
               {[ 1 := true ]} initial_globals)))
  = Z.of_nat 1.
Proof.
  apply (HighlightLine_dense _ _ sample_ebreak_not_pseudo sample_ebreak_real
           (Join ["li a0, 1"; "ecall"; "addi a0, a0, 1"] nl)
           {[ 1 := true ]} initial_globals 1 1 "ecall").
  - replace (Split (Join ["li a0, 1"; "ecall"; "addi a0, a0, 1"] nl) nl)
      with ["li a0, 1"; "ecall"; "addi a0, a0, 1"]
      by (vm_compute; reflexivity).
    repeat (constructor; [vm_compute; reflexivity |]). constructor.
  - vm_compute. reflexivity.
  - vm_compute. lia.
  - vm_compute. lia.
  - vm_compute. lia.
Defined.

Lemma instrumented_counts_witness :
  instruction_count sample_InstructionToOpType sample_PseudoToInstruction
    (instrumented sample_InstructionToOpType sample_PseudoToInstruction
       {[ 1 := true; 2 := true ]} ["li a0, 1"; "# comment"; "ecall"])
  = instruction_count sample_InstructionToOpType sample_PseudoToInstruction
      ["li a0, 1"; "# comment"; "ecall"]
    + Z.of_nat
        (size (breakpointed_instructions sample_InstructionToOpType
                 sample_PseudoToInstruction {[ 1 := true; 2 := true ]}
                 ["li a0, 1"; "# comment"; "ecall"])).
Proof.
  apply (instrumented_counts _ _ sample_ebreak_not_pseudo sample_ebreak_real
           {[ 1 := true; 2 := true ]} ["li a0, 1"; "# comment"; "ecall"]).
Defined.

Lemma insertBreakpoints_agrees_witness :
  Split (insertBreakpoints {[ 1 := true ]} (Join ["li a0, 1"; "ecall"] nl)) nl
  = instrumented sample_InstructionToOpType sample_PseudoToInstruction
      {[ 1 := true ]} (Split (Join ["li a0, 1"; "ecall"] nl) nl).
Proof.
  apply (insertBreakpoints_agrees sample_InstructionToOpType
           sample_PseudoToInstruction {[ 1 := true ]}
           (Join ["li a0, 1"; "ecall"] nl)).
  intros i line Hi.
  destruct i as [|[|i]]; vm_compute in Hi; try discriminate;
    injection Hi as <-; vm_compute.
  - split; [intros [? ?]; discriminate | discriminate].
  - split; [reflexivity | eauto].
Defined.

Lemma AddRecentFile_sequence_witness :
  NoDup (foldl (fun files path => AddRecentFile path files) []
           ["a.s"; "b.s"; "a.s"])
  /\ (length (foldl (fun files path => AddRecentFile path files) []
                ["a.s"; "b.s"; "a.s"]) <= 10)%nat.
Proof.
  pose proof (AddRecentFile_sequence ["a.s"; "b.s"; "a.s"] []) as H.
  cbv zeta in H.
  destruct H as (Hnd & Hlen & _); [constructor | simpl; lia |].
  split; assumption.
Defined.
